(** * physalia: asynchronous Monsoon reader

    A shallow embedding of [physalia/third_party/monsoon_async.py]
    ([MonsoonReader]) and the properties of its rate-conversion loop.

    Modelling conventions.
    - Python integers are [Z]; readings and wall-clock instants, which are
      Python floats in the program, are rationals ([Q]): the rounding of
      binary64 arithmetic on them is not modelled, so a value of the series
      is the exact mean where the program holds the nearest float.
    - The quotient of line 88 is an integer quotient in [need] and the
      binary64 quotient of Python 3 in [need_py3]; the two agree, and so
      do the loops built on them, as long as the rates stay below [2^53]
      ([need_py3_exact], [python3_run_is_exact_run]).
    - Everything the program obtains from outside (the power monitor, the
      clock, the stop event as seen by the worker) is read from a [World],
      a record of oracles indexed by the number of earlier reads.
    - Python exceptions are values of [pyexn]; a call that may raise returns
      a [pyresult].  Only instances of [Exception] are modelled, which is
      what the [except Exception] clauses of the program catch.
    - The two [while] loops may run forever, so their models take fuel. *)

From Stdlib Require Import ZArith QArith Qround List Bool Lia Sorted.
Import ListNotations.
Open Scope Z_scope.

Set Implicit Arguments.

(** ** Python primitives used by the reader *)

Module Py.

Inductive pyexn : Type :=
| ZeroDivisionError
| OverflowError
| RuntimeError
| MonsoonError (code : nat).

Inductive pyresult (A : Type) : Type :=
| Return (a : A)
| Raise (e : pyexn).

Arguments Return {A} a.
Arguments Raise {A} e.

(** [int(a / b)] on integers, with the quotient taken exactly and
    truncated toward zero; [b = 0] raises.  This is the integer-arithmetic
    reading of the expression: it is what Python 2 computes when [0 <= a]
    and [0 < b] (there [/] is a floor division, see [int_truediv_floor]),
    and what Python 3 computes as long as [a < 2^53] (see
    [int_truediv_binary64] below and [int_truediv_binary64_exact]). *)
Definition int_truediv (a b : Z) : pyresult Z :=
  if b =? 0 then Raise ZeroDivisionError else Return (Z.quot a b).

(** *** [int(a / b)] under Python 3

    On integers, [a / b] is the binary64 float nearest to the exact
    quotient (ties to even), and [OverflowError] when that float would not
    be finite; [int] then truncates it. *)

(** The fraction [num / den], for positive [num] and [den], rounded to
    the nearest integer, ties to even. *)
Definition round_half_even (num den : Z) : Z :=
  let f := num / den in
  let twice := 2 * (num mod den) in
  if twice <? den then f
  else if den <? twice then f + 1
  else if Z.even f then f else f + 1.

(** [x * 2^e] when [0 <= e], [x] otherwise. *)
Definition scale (x e : Z) : Z := x * 2 ^ Z.max 0 e.

(** [floor(log2(a / b))] for positive [a] and [b]. *)
Definition quotient_exponent (a b : Z) : Z :=
  let e0 := Z.log2 a - Z.log2 b in
  if scale b e0 <=? scale a (- e0) then e0 else e0 - 1.

(** For positive [a] and [b]: the quotient is written [r * 2^e] with a
    significand [r] of at most 53 bits ([e] is not below -1074, the
    exponent of the subnormal floats); a float of magnitude [2^1024] or
    more does not exist; the float is then truncated to an integer. *)
Definition int_truediv_pos (a b : Z) : pyresult Z :=
  let e := Z.max (quotient_exponent a b - 52) (-1074) in
  let r := round_half_even (scale a (- e)) (scale b e) in
  if (0 <=? e) && (2 ^ 1024 <=? r * 2 ^ e) then Raise OverflowError
  else Return (if 0 <=? e then r * 2 ^ e else r / 2 ^ (- e)).

Definition int_truediv_binary64 (a b : Z) : pyresult Z :=
  if b =? 0 then Raise ZeroDivisionError
  else if a =? 0 then Return 0
  else
    match int_truediv_pos (Z.abs a) (Z.abs b) with
    | Return v => Return (Z.sgn a * Z.sgn b * v)
    | Raise e => Raise e
    end.

(** [l[:n]]: a negative bound counts from the end. *)
Definition slice_to {A : Type} (n : Z) (l : list A) : list A :=
  if n <? 0 then firstn (length l - Z.to_nat (- n)) l
  else firstn (Z.to_nat n) l.

(** [l[n:]] *)
Definition slice_from {A : Type} (n : Z) (l : list A) : list A :=
  if n <? 0 then skipn (length l - Z.to_nat (- n)) l
  else skipn (Z.to_nat n) l.

(** [sum(l)] *)
Definition sum (l : list Q) : Q := fold_left Qplus l 0%Q.

(** [x / n] with a float [x] and an integer [n]. *)
Definition truediv (x : Q) (n : Z) : pyresult Q :=
  if n =? 0 then Raise ZeroDivisionError else Return (x / inject_Z n)%Q.

(** [int(t)] on a float: truncation toward zero. *)
Definition int_of_float (t : Q) : Z := Z.quot (Qnum t) (Z.pos (Qden t)).

(** [len(l)] *)
Definition len {A : Type} (l : list A) : Z := Z.of_nat (length l).

(** Truth value of what [CollectData] returns: [None] and the empty
    list are both false. *)
Definition truthy {A : Type} (r : option (list A)) : bool :=
  match r with
  | None | Some [] => false
  | Some (_ :: _) => true
  end.

Definition list_of {A : Type} (r : option (list A)) : list A :=
  match r with
  | None => []
  | Some l => l
  end.

End Py.

Import Py.

(** ** The rate converter: how many raw samples the next output needs

    Line 88: [need = int((native_hz - offset + sample_hz - 1) / sample_hz)]. *)

Definition need (native_hz sample_hz offset : Z) : pyresult Z :=
  int_truediv (native_hz - offset + sample_hz - 1) sample_hz.

(** The same line with the quotient rounded as Python 3 rounds it. *)
Definition need_py3 (native_hz sample_hz offset : Z) : pyresult Z :=
  int_truediv_binary64 (native_hz - offset + sample_hz - 1) sample_hz.

(** The contract's wording of the same quantity:
    [ceil((NativeRate - offset) / OutputRate)] over the rationals. *)
Definition need_spec (native_hz sample_hz offset : Z) : Z :=
  Qceiling (inject_Z (native_hz - offset) / inject_Z sample_hz).

(** Line 101: [sum(collected[:need]) / need]. *)
Definition average (collected : list Q) (n : Z) : pyresult Q :=
  truediv (sum (slice_to n collected)) n.


(** ** The outside world

    [monsoon.mon] is the power monitor, [time.time()] the clock,
    [MonsoonData] the container of [physalia.third_party.monsoon] that
    receives the series.  None of them is part of this module, so each is
    an oracle: the [k]-th call of [CollectData] returns [CollectData w k],
    the [k]-th reading of the clock is [time w k], and the [k]-th
    evaluation of the loop condition by a sequential run sees the stop
    event as [is_set w k]. *)

Inductive MonCall : Type :=
| CallGetVoltage
| CallStopDataCollection
| CallGetStatus
| CallStartDataCollection
| CallCollectData.

Inductive LogLine : Type :=
| TakingSamples (hz : Z) (voltage : Q)
| LiveSample (this_time : Z) (this_sample : Q).

Record World (D : Type) : Type := mkWorld {
  GetVoltage : Q;
  sampleRate : Z;
  CollectData : nat -> pyresult (option (list Q));
  time : nat -> Q;
  is_set : nat -> bool;
  MonsoonData : list Q -> list Z -> Z -> Q -> Z -> pyresult D
}.

(** ** State of [_take_samples]

    The first six fields are the local variables of the function.  The
    next six record its effects: the calls made on the monitor, the lines
    logged, and how many times the clock, the monitor's data and the stop
    event were read.  [consumed] is a ghost: the number of raw samples
    removed from the front of [collected] so far (the "consumed samples"
    of the comment at lines 72-76); the program does not store it. *)

Record State : Type := mkState {
  offset : Z;
  emitted : Z;
  collected : list Q;
  current_values : list Q;
  timestamps : list Z;
  last_flush : Q;
  mon_calls : list MonCall;
  log : list LogLine;
  flushes : nat;
  clock_reads : nat;
  batches : nat;
  checks : nat;
  consumed : Z
}.

Definition call (c : MonCall) (s : State) : State :=
  mkState (offset s) (emitted s) (collected s) (current_values s)
    (timestamps s) (last_flush s) (mon_calls s ++ [c]) (log s) (flushes s)
    (clock_reads s) (batches s) (checks s) (consumed s).

(** [samples = monsoon.mon.CollectData()] has been evaluated. *)
Definition collect_called (s : State) : State :=
  let s' := call CallCollectData s in
  mkState (offset s') (emitted s') (collected s') (current_values s')
    (timestamps s') (last_flush s') (mon_calls s') (log s') (flushes s')
    (clock_reads s') (S (batches s')) (checks s') (consumed s').

(** [collected.extend(samples)] *)
Definition extend (samples : list Q) (s : State) : State :=
  mkState (offset s) (emitted s) (collected s ++ samples) (current_values s)
    (timestamps s) (last_flush s) (mon_calls s) (log s) (flushes s)
    (clock_reads s) (batches s) (checks s) (consumed s).

(** [offset += d] *)
Definition advance (d : Z) (s : State) : State :=
  mkState (offset s + d) (emitted s) (collected s) (current_values s)
    (timestamps s) (last_flush s) (mon_calls s) (log s) (flushes s)
    (clock_reads s) (batches s) (checks s) (consumed s).

(** Lines 102-109, once [this_sample] has been computed. *)
Definition emit (D : Type) (w : World D) (native_hz : Z) (live : bool)
    (this_sample : Q) (s : State) : State :=
  let this_time := int_of_float (time w (clock_reads s)) in
  mkState (offset s - native_hz) (emitted s + 1) (collected s)
    (current_values s ++ [this_sample]) (timestamps s ++ [this_time])
    (last_flush s) (mon_calls s)
    (if live then log s ++ [LiveSample this_time this_sample] else log s)
    (S (flushes s)) (S (clock_reads s)) (batches s) (checks s) (consumed s).

(** Lines 110-114: [collected = collected[need:]], then the periodic
    flush. *)
Definition drop_consumed (D : Type) (w : World D) (n : Z) (s : State) : State :=
  let rest := slice_from n (collected s) in
  let now := time w (clock_reads s) in
  let due := Qle_bool (99 # 100) (now - last_flush s) in
  mkState (offset s) (emitted s) rest (current_values s) (timestamps s)
    (if due then now else last_flush s) (mon_calls s) (log s)
    (if due then S (flushes s) else flushes s) (S (clock_reads s))
    (batches s) (checks s)
    (consumed s + (len (collected s) - len rest)).

(** The loop condition has been evaluated once more. *)
Definition checked (s : State) : State :=
  mkState (offset s) (emitted s) (collected s) (current_values s)
    (timestamps s) (last_flush s) (mon_calls s) (log s) (flushes s)
    (clock_reads s) (batches s) (S (checks s)) (consumed s).

(** ** One iteration of the collection loop *)

Inductive step : Type :=
| Continue (s : State)
| Break (s : State)
| Raised (e : pyexn) (s : State)
| OutOfFuel.

(** Lines 99-109: [while offset >= native_hz: ...]. *)
Fixpoint emit_loop (D : Type) (w : World D) (native_hz : Z) (live : bool)
    (n : Z) (fuel : nat) (s : State) : step :=
  if native_hz <=? offset s then
    match fuel with
    | O => OutOfFuel
    | S fuel' =>
        match average (collected s) n with
        | Raise e => Raised e s
        | Return this_sample =>
            emit_loop w native_hz live n fuel'
              (emit w native_hz live this_sample s)
        end
    end
  else Continue s.

(** Lines 86-114: the body of the outer [while]. *)
Definition iteration (D : Type) (w : World D) (native_hz sample_hz : Z)
    (live : bool) (fuel : nat) (s : State) : step :=
  match need native_hz sample_hz (offset s) with
  | Raise e => Raised e s
  | Return n =>
      if len (collected s) <? n then
        match CollectData w (batches s) with
        | Raise e => Raised e (collect_called s)
        | Return samples =>
            if truthy samples
            then Continue (extend (list_of samples) (collect_called s))
            else Break (collect_called s)
        end
      else
        match emit_loop w native_hz live n fuel (advance (n * sample_hz) s) with
        | Continue s' => Continue (drop_consumed w n s')
        | r => r
        end
  end.

(** ** The collection loop, run sequentially

    Lines 85-114.  The loop ends because the stop event is set, because
    of the [break], or because an exception leaves it. *)

Inductive loop_end : Type :=
| Cancelled (s : State)
| EndOfStream (s : State)
| Thrown (e : pyexn) (s : State).

Definition end_state (r : loop_end) : State :=
  match r with
  | Cancelled s | EndOfStream s | Thrown _ s => s
  end.

Fixpoint loop (D : Type) (w : World D) (native_hz sample_hz : Z)
    (live : bool) (fuel : nat) (s : State) : option loop_end :=
  match fuel with
  | O => None
  | S fuel' =>
      if is_set w (checks s) then Some (Cancelled (checked s))
      else
        match iteration w native_hz sample_hz live fuel (checked s) with
        | Continue s' => loop w native_hz sample_hz live fuel' s'
        | Break s' => Some (EndOfStream s')
        | Raised e s' => Some (Thrown e s')
        | OutOfFuel => None
        end
  end.

(** ** [_take_samples]

    [prelude] is lines 59-84: the monitor is read and restarted, the
    locals are initialised and the clock is read once for [last_flush].
    [epilogue] is lines 115-127: whichever way the loop ended (the
    handler of line 115 is [pass]), data collection is stopped and the
    series is handed to [MonsoonData]; if that constructor raises, the
    result is [None]. *)

(** Line 67: [native_hz = status["sampleRate"] * 1000]. *)
Definition native_rate (D : Type) (w : World D) : Z := sampleRate w * 1000.

(** The calls made on the monitor before the loop (lines 60-70). *)
Definition prelude_calls : list MonCall :=
  [CallGetVoltage; CallStopDataCollection; CallGetStatus;
   CallStartDataCollection].

Definition prelude (D : Type) (w : World D) (sample_hz : Z) : State :=
  mkState 0 0 [] [] [] (time w 0) prelude_calls
    [TakingSamples sample_hz (GetVoltage w)] 1 1 0 0 0.

Record Result (D : Type) : Type := mkResult {
  ended : loop_end;
  final : State;
  result_data : option D
}.

(** Lines 118-127: what is assigned to [self.data]. *)
Definition assemble (D : Type) (w : World D) (sample_hz sample_offset : Z)
    (values : list Q) (times : list Z) : option D :=
  match MonsoonData w values times sample_hz (GetVoltage w) sample_offset with
  | Return d => Some d
  | Raise _ => None
  end.

Definition epilogue (D : Type) (w : World D) (sample_hz sample_offset : Z)
    (r : loop_end) : Result D :=
  let s := call CallStopDataCollection (end_state r) in
  mkResult r s
    (assemble w sample_hz sample_offset (current_values s) (timestamps s)).

Definition _take_samples (D : Type) (w : World D)
    (sample_hz sample_offset : Z) (live : bool) (fuel : nat)
    : option (Result D) :=
  match loop w (native_rate w) sample_hz live fuel (prelude w sample_hz) with
  | None => None
  | Some r => Some (epilogue w sample_hz sample_offset r)
  end.

(** ** The reader as a thread

    [MonsoonReader] is a [Thread]: [start()] (inherited) makes the worker
    run [run()], that is [_take_samples]; [stop()] sets the event and
    joins.  The worker is observed at the points where it can see the
    event: before it evaluates the loop condition ([AtCheck]) and after it
    found the event clear ([InBody]). *)

Inductive thread : Type :=
| Initial
| Started
| AtCheck (s : State)
| InBody (s : State)
| Terminated (s : State).

Module MonsoonReader.

Record self (D : Type) : Type := mk {
  sample_hz : Z;
  sample_offset : Z;
  live : bool;
  _please_stop : bool;
  data : option D;
  state : thread
}.

(** Lines 17-24. *)
Definition __init__ (D : Type) (sample_hz sample_offset : Z) (live : bool)
    : self D :=
  mk sample_hz sample_offset live false None Initial.

Definition with_state (D : Type) (t : thread) (r : self D) : self D :=
  mk (sample_hz r) (sample_offset r) (live r) (_please_stop r) (data r) t.

(** [Thread.start]: a thread can be started once. *)
Definition start (D : Type) (r : self D) : pyresult (self D) :=
  match state r with
  | Initial => Return (with_state Started r)
  | _ => Raise RuntimeError
  end.

(** Line 38: [self._please_stop.set()]. *)
Definition set_please_stop (D : Type) (r : self D) : self D :=
  mk (sample_hz r) (sample_offset r) (live r) true (data r) (state r).

(** The worker leaves the loop and runs lines 115-127. *)
Definition finish (D : Type) (w : World D) (e : loop_end) (r : self D)
    : self D :=
  let res := epilogue w (sample_hz r) (sample_offset r) e in
  mk (sample_hz r) (sample_offset r) (live r) (_please_stop r)
    (result_data res) (Terminated (final res)).

End MonsoonReader.

Inductive worker_step (D : Type) (w : World D)
    : MonsoonReader.self D -> MonsoonReader.self D -> Prop :=
| run_begins r :
    MonsoonReader.state r = Started ->
    worker_step w r
      (MonsoonReader.with_state
         (AtCheck (prelude w (MonsoonReader.sample_hz r))) r)
| sees_stop r s :
    MonsoonReader.state r = AtCheck s ->
    MonsoonReader._please_stop r = true ->
    worker_step w r (MonsoonReader.finish w (Cancelled (checked s)) r)
| sees_clear r s :
    MonsoonReader.state r = AtCheck s ->
    MonsoonReader._please_stop r = false ->
    worker_step w r (MonsoonReader.with_state (InBody (checked s)) r)
| body_continues r s fuel s' :
    MonsoonReader.state r = InBody s ->
    iteration w (native_rate w) (MonsoonReader.sample_hz r)
      (MonsoonReader.live r) fuel s = Continue s' ->
    worker_step w r (MonsoonReader.with_state (AtCheck s') r)
| body_breaks r s fuel s' :
    MonsoonReader.state r = InBody s ->
    iteration w (native_rate w) (MonsoonReader.sample_hz r)
      (MonsoonReader.live r) fuel s = Break s' ->
    worker_step w r (MonsoonReader.finish w (EndOfStream s') r)
| body_raises r s fuel e s' :
    MonsoonReader.state r = InBody s ->
    iteration w (native_rate w) (MonsoonReader.sample_hz r)
      (MonsoonReader.live r) fuel s = Raised e s' ->
    worker_step w r (MonsoonReader.finish w (Thrown e s') r).

(** The thread that owns the reader: it is outside [stop()], inside it
    and blocked in [join()] (line 39), or past it. *)
Inductive caller : Type :=
| Outside
| Joining
| StopReturned
| StopRaised (e : pyexn).

Record System (D : Type) : Type := mkSystem {
  reader : MonsoonReader.self D;
  owner : caller
}.

Inductive sys_step (D : Type) (w : World D) : System D -> System D -> Prop :=
| calls_start r r' :
    MonsoonReader.start r = Return r' ->
    sys_step w (mkSystem r Outside) (mkSystem r' Outside)
| stop_sets r :
    sys_step w (mkSystem r Outside)
      (mkSystem (MonsoonReader.set_please_stop r) Joining)
| join_returns r s :
    MonsoonReader.state r = Terminated s ->
    sys_step w (mkSystem r Joining) (mkSystem r StopReturned)
| join_raises r :
    MonsoonReader.state r = Initial ->
    sys_step w (mkSystem r Joining) (mkSystem r (StopRaised RuntimeError))
| worker_runs r r' c :
    worker_step w r r' ->
    sys_step w (mkSystem r c) (mkSystem r' c).

Inductive sys_steps (D : Type) (w : World D) : System D -> System D -> Prop :=
| steps_refl x : sys_steps w x x
| steps_next x y z : sys_step w x y -> sys_steps w y z -> sys_steps w x z.

(** The series held by a loop state. *)
Definition series_in (s : State) : list Q * list Z :=
  (current_values s, timestamps s).

(** The series accumulated by the worker. *)
Definition series (t : thread) : list Q * list Z :=
  match t with
  | Initial | Started => ([], [])
  | AtCheck s | InBody s | Terminated s => series_in s
  end.

Definition series_of (D : Type) (x : System D) : list Q * list Z :=
  series (MonsoonReader.state (reader x)).

(** ** Reachable loop states and the accumulator invariant

    [at_top w native_hz sample_hz live s]: a run of the loop from the
    initial locals can be at the top of an iteration in state [s]. *)

Inductive at_top (D : Type) (w : World D) (native_hz sample_hz : Z)
    (live : bool) : State -> Prop :=
| top_first : at_top w native_hz sample_hz live (prelude w sample_hz)
| top_next s fuel s' :
    at_top w native_hz sample_hz live s ->
    iteration w native_hz sample_hz live fuel (checked s) = Continue s' ->
    at_top w native_hz sample_hz live s'.

Definition accumulator_ok (native_hz sample_hz : Z) (s : State) : Prop :=
  offset s = consumed s * sample_hz - emitted s * native_hz
  /\ 0 <= offset s < native_hz.


(** [k] emissions in a row of the same value [v] (used to describe what
    [emit_loop] computes). *)
Fixpoint emit_times (D : Type) (w : World D) (native_hz : Z) (live : bool)
    (v : Q) (k : nat) (s : State) : State :=
  match k with
  | O => s
  | S k' => emit_times w native_hz live v k' (emit w native_hz live v s)
  end.

(** The clock readings taken by [k] emissions that start when the clock
    has been read [c] times. *)
Definition fresh_times (D : Type) (w : World D) (c k : nat) : list Z :=
  map (fun i => int_of_float (time w i)) (seq c k).

(** [k] completed iterations in a row, whatever the stop event. *)
Fixpoint iterations (D : Type) (w : World D) (native_hz sample_hz : Z)
    (live : bool) (fuel k : nat) (s : State) : option State :=
  match k with
  | O => Some s
  | S k' =>
      match iteration w native_hz sample_hz live fuel (checked s) with
      | Continue s' => iterations w native_hz sample_hz live fuel k' s'
      | _ => None
      end
  end.

(** The lengths of the two output lists agree. *)
Definition lockstep (s : State) : Prop :=
  length (current_values s) = length (timestamps s).

(** ** Sample worlds for the examples

    A monitor at 4.2 V whose clock advances half a second per reading and
    whose stop event is set from the [stop_after]-th check on; the
    container refuses a series that is not longer than the trim offset. *)

Definition sample_container (values : list Q) (times : list Z)
    (hz : Z) (voltage : Q) (trim : Z) : pyresult (list Q * list Z) :=
  if len values <=? trim then Raise (MonsoonError 0)
  else Return (slice_from trim values, slice_from trim times).

Definition sample_world (rate_khz : Z)
    (source : nat -> pyresult (option (list Q))) (stop_after : nat)
    : World (list Q * list Z) :=
  mkWorld (21 # 5) rate_khz source
    (fun k => (2000 + Z.of_nat k) # 2)
    (fun k => (stop_after <=? k)%nat)
    sample_container.

Definition steady (k : nat) : pyresult (option (list Q)) :=
  Return (Some [1; 3; 5; 7]%Q).

Definition exhausted (k : nat) : pyresult (option (list Q)) :=
  Return None.

Definition failing_after (good : nat) (k : nat) : pyresult (option (list Q)) :=
  if (k <? good)%nat then Return (Some [1; 3; 5; 7]%Q)
  else Raise (MonsoonError 1).

(** The locals after a first iteration that fetched one batch. *)
Definition sample_pending (sample_hz : Z) : State :=
  extend [1; 3; 5; 7]%Q
    (collect_called (checked (prelude (sample_world 0 steady 9) sample_hz))).

(** The state in which an iteration ended, if it ended. *)
Definition step_state (r : step) : option State :=
  match r with
  | Continue s | Break s | Raised _ s => Some s
  | OutOfFuel => None
  end.

(** Inside the loop the monitor is only asked for data. *)
Definition calls_shape (s : State) : Prop :=
  mon_calls s = prelude_calls ++ repeat CallCollectData (batches s).

(** The stop event is set; the worker is executing an iteration. *)
Definition stop_requested (D : Type) (x : System D) : Prop :=
  MonsoonReader._please_stop (reader x) = true.

Definition in_body (D : Type) (x : System D) : Prop :=
  exists s, MonsoonReader.state (reader x) = InBody s.

(** The loop states met by the worker of a reader configured with
    [sample_hz] and [live] are those of [at_top]. *)
Definition worker_ok (D : Type) (w : World D) (sample_hz : Z) (live : bool)
    (r : MonsoonReader.self D) : Prop :=
  MonsoonReader.sample_hz r = sample_hz
  /\ MonsoonReader.live r = live
  /\ match MonsoonReader.state r with
     | AtCheck s => at_top w (native_rate w) sample_hz live s
     | InBody s =>
         exists t, at_top w (native_rate w) sample_hz live t /\ s = checked t
     | _ => True
     end.

(** ** Vocabulary for further properties of the loop *)

(** The samples delivered by the [i]-th [CollectData] call, and the raw
    stream delivered by the first [k] calls. *)
Definition batch_of (D : Type) (w : World D) (i : nat) : list Q :=
  match CollectData w i with
  | Return r => list_of r
  | Raise _ => []
  end.

Definition stream (D : Type) (w : World D) (k : nat) : list Q :=
  flat_map (batch_of w) (seq 0 k).

(** The clock never goes back. *)
Definition clock_monotone (D : Type) (w : World D) : Prop :=
  forall i j, (i <= j)%nat -> (time w i <= time w j)%Q.

(** The lines ([monsoon.log.info]) that mirror a series in live mode. *)
Definition live_lines (times : list Z) (values : list Q) : list LogLine :=
  map (fun p => LiveSample (fst p) (snd p)) (combine times values).

(** Every [CollectData] call returns at least one sample. *)
Definition source_never_dry (D : Type) (w : World D) : Prop :=
  forall i, exists samples,
    CollectData w i = Return samples /\ truthy samples = true.


(** ** A resampler of whole lists

    [resample fuel native_hz sample_hz off l] averages [l] window by
    window with the arithmetic of lines 88-110, starting from accumulator
    [off], and stops at the first window that [l] cannot fill.  It knows
    nothing of batches, clocks or the monitor. *)
Fixpoint resample (fuel : nat) (native_hz sample_hz off : Z) (l : list Q)
    : list Q :=
  match fuel with
  | O => []
  | S fuel' =>
      match need native_hz sample_hz off with
      | Raise _ => []
      | Return n =>
          if len l <? n then []
          else
            match average l n with
            | Raise _ => []
            | Return v =>
                repeat v (Z.to_nat ((off + n * sample_hz) / native_hz))
                ++ resample fuel' native_hz sample_hz
                     ((off + n * sample_hz) mod native_hz) (slice_from n l)
            end
      end
  end.

(** [windows N R off l off' out]: [l] splits exactly into successive
    windows, from accumulator [off] to accumulator [off'], whose outputs
    are [out]. *)
Inductive windows (native_hz sample_hz : Z)
    : Z -> list Q -> Z -> list Q -> Prop :=
| windows_nil off : windows native_hz sample_hz off [] off []
| windows_cons off n W v rest off' out :
    need native_hz sample_hz off = Return n ->
    len W = n ->
    average W n = Return v ->
    windows native_hz sample_hz ((off + n * sample_hz) mod native_hz)
      rest off' out ->
    windows native_hz sample_hz off (W ++ rest) off'
      (repeat v (Z.to_nat ((off + n * sample_hz) / native_hz)) ++ out).

(** The stream of [steady], delivered two samples at a time. *)
Definition paired (k : nat) : pyresult (option (list Q)) :=
  if Nat.even k then Return (Some [1; 3]%Q) else Return (Some [5; 7]%Q).

(** A monitor that delivers one batch and then nothing. *)
Definition one_batch (k : nat) : pyresult (option (list Q)) :=
  match k with
  | O => Return (Some [1; 3; 5; 7]%Q)
  | S _ => Return None
  end.

(** ** The loop with the quotient of line 88 rounded as in Python 3

    [iteration_py3], [loop_py3] and [_take_samples_py3] are [iteration],
    [loop] and [_take_samples] with [need_py3] for [need]; nothing else
    differs. *)

Definition iteration_py3 (D : Type) (w : World D) (native_hz sample_hz : Z)
    (live : bool) (fuel : nat) (s : State) : step :=
  match need_py3 native_hz sample_hz (offset s) with
  | Raise e => Raised e s
  | Return n =>
      if len (collected s) <? n then
        match CollectData w (batches s) with
        | Raise e => Raised e (collect_called s)
        | Return samples =>
            if truthy samples
            then Continue (extend (list_of samples) (collect_called s))
            else Break (collect_called s)
        end
      else
        match emit_loop w native_hz live n fuel (advance (n * sample_hz) s) with
        | Continue s' => Continue (drop_consumed w n s')
        | r => r
        end
  end.

Fixpoint loop_py3 (D : Type) (w : World D) (native_hz sample_hz : Z)
    (live : bool) (fuel : nat) (s : State) : option loop_end :=
  match fuel with
  | O => None
  | S fuel' =>
      if is_set w (checks s) then Some (Cancelled (checked s))
      else
        match iteration_py3 w native_hz sample_hz live fuel (checked s) with
        | Continue s' => loop_py3 w native_hz sample_hz live fuel' s'
        | Break s' => Some (EndOfStream s')
        | Raised e s' => Some (Thrown e s')
        | OutOfFuel => None
        end
  end.

Definition _take_samples_py3 (D : Type) (w : World D)
    (sample_hz sample_offset : Z) (live : bool) (fuel : nat)
    : option (Result D) :=
  match loop_py3 w (native_rate w) sample_hz live fuel (prelude w sample_hz)
  with
  | None => None
  | Some r => Some (epilogue w sample_hz sample_offset r)
  end.

Inductive at_top_py3 (D : Type) (w : World D) (native_hz sample_hz : Z)
    (live : bool) : State -> Prop :=
| top_first_py3 : at_top_py3 w native_hz sample_hz live (prelude w sample_hz)
| top_next_py3 s fuel s' :
    at_top_py3 w native_hz sample_hz live s ->
    iteration_py3 w native_hz sample_hz live fuel (checked s) = Continue s' ->
    at_top_py3 w native_hz sample_hz live s'.

Unset Implicit Arguments.

(** ** Arithmetic of the need computation *)

Lemma int_truediv_floor (a b : Z) :
  0 <= a -> 0 < b -> int_truediv a b = Return (a / b).
Proof.
  intros Ha Hb. unfold int_truediv.
  destruct (Z.eqb_spec b 0) as [E | _]; [lia |].
  now rewrite Z.quot_div_nonneg.
Qed.

Lemma ceil_div_by_floor (a b : Z) :
  0 < b -> (a + b - 1) / b = - ((- a) / b).
Proof.
  intros Hb.
  pose proof (Z.div_mod (- a) b ltac:(lia)) as E.
  pose proof (Z.mod_pos_bound (- a) b Hb) as B.
  symmetry.
  apply (Z.div_unique_pos _ _ _ (b - 1 - (- a) mod b)); lia.
Qed.

Lemma Qceiling_quotient (a b : Z) :
  0 < b -> Qceiling (inject_Z a / inject_Z b) = - ((- a) / b).
Proof.
  intros Hb. unfold Qceiling. f_equal.
  rewrite (Zdiv_Qdiv (- a) b).
  apply Qfloor_comp.
  rewrite inject_Z_opp. field.
  intros E. apply (Qeq_bool_neq (inject_Z b) 0%Q); [| exact E].
  unfold Qeq_bool, inject_Z; simpl. destruct (Z.eqb_spec (b * 1) 0); [lia | reflexivity].
Qed.

Lemma need_floor (N R off : Z) :
  1 <= R -> off < N -> need N R off = Return ((N - off + R - 1) / R).
Proof.
  intros HR Hoff. unfold need. apply int_truediv_floor; lia.
Qed.

Lemma need_bracket (N R off n : Z) :
  1 <= R -> off < N -> need N R off = Return n ->
  (n - 1) * R < N - off <= n * R.
Proof.
  intros HR Hoff E. rewrite need_floor in E by assumption.
  injection E as <-.
  pose proof (Z.div_mod (N - off + R - 1) R ltac:(lia)) as D.
  pose proof (Z.mod_pos_bound (N - off + R - 1) R ltac:(lia)) as B.
  nia.
Qed.

(** ** The need computation is a ceiling division *)

(** With the quotient taken exactly: for rates at least 1 and an offset
    in [[0, NativeRate)], the need computation returns
    [ceil((NativeRate - offset) / OutputRate)]; it is the least count whose multiple of the output rate
    reaches [NativeRate - offset], so it never under-counts as a floor
    division would. *)
Lemma need_exact_is_ceiling (N R off : Z) :
  1 <= N -> 1 <= R -> 0 <= off < N ->
  need N R off = Return (need_spec N R off)
  /\ (need_spec N R off - 1) * R < N - off <= need_spec N R off * R
  /\ (N - off) / R <= need_spec N R off.
Proof.
  intros HN HR Hoff.
  assert (E : need N R off = Return (need_spec N R off)).
  { rewrite need_floor by lia. f_equal. unfold need_spec.
    rewrite Qceiling_quotient by lia.
    replace (N - off + R - 1) with ((N - off) + R - 1) by lia.
    apply ceil_div_by_floor; lia. }
  split; [exact E |].
  pose proof (need_bracket N R off _ ltac:(lia) ltac:(lia) E) as B.
  split; [exact B |].
  apply Z.div_le_upper_bound; lia.
Qed.

Lemma need_at_least_one (N R off n : Z) :
  1 <= R -> off < N -> need N R off = Return n -> 1 <= n.
Proof.
  intros HR Hoff E.
  pose proof (need_bracket N R off n HR Hoff E). nia.
Qed.

Lemma average_defined (l : list Q) (n : Z) :
  n <> 0 -> average l n = Return (sum (slice_to n l) / inject_Z n)%Q.
Proof.
  intros Hn. unfold average, truediv.
  destruct (Z.eqb_spec n 0); [contradiction | reflexivity].
Qed.

(** C3: with [1 <= OutputRate <= NativeRate] and an offset in
    [[0, NativeRate)], the need computed at line 88 is at least 1, and the
    averaging division of line 101 by that need does not raise. *)
Theorem need_positive (N R off : Z) (pending : list Q) :
  1 <= R <= N -> 0 <= off < N ->
  exists n, need N R off = Return n /\ 1 <= n
    /\ average pending n = Return (sum (slice_to n pending) / inject_Z n)%Q.
Proof.
  intros HR Hoff.
  exists ((N - off + R - 1) / R).
  assert (E : need N R off = Return ((N - off + R - 1) / R))
    by (apply need_floor; lia).
  pose proof (need_at_least_one N R off _ ltac:(lia) ltac:(lia) E) as P.
  repeat split; [exact E | exact P |].
  apply average_defined. lia.
Qed.

Lemma need_positive_witness :
  exists n, need 5000 5 0 = Return n /\ 1 <= n
    /\ average [1%Q; 1%Q] n = Return (sum (slice_to n [1%Q; 1%Q]) / inject_Z n)%Q.
Proof. apply (need_positive 5000 5 0 [1%Q; 1%Q]); lia. Defined.

(** ** The emission loop *)

Lemma emit_times_fields {D} (w : World D) N live v k : forall s,
  let s' := emit_times w N live v k s in
  offset s' = offset s - Z.of_nat k * N
  /\ emitted s' = emitted s + Z.of_nat k
  /\ collected s' = collected s
  /\ current_values s' = current_values s ++ repeat v k
  /\ timestamps s' = timestamps s ++ fresh_times w (clock_reads s) k
  /\ clock_reads s' = (clock_reads s + k)%nat
  /\ consumed s' = consumed s
  /\ mon_calls s' = mon_calls s
  /\ batches s' = batches s
  /\ checks s' = checks s
  /\ last_flush s' = last_flush s.
Proof.
  induction k as [| k IH]; intros s; cbn zeta.
  - cbn [emit_times repeat]. unfold fresh_times. cbn [seq map].
    rewrite !app_nil_r, Nat.add_0_r. repeat split; lia.
  - cbn [emit_times].
    destruct (IH (emit w N live v s)) as
      (Ho & He & Hc & Hv & Ht & Hk & Hg & Hm & Hb & Hx & Hf).
    rewrite Ho, He, Hc, Hv, Ht, Hk, Hg, Hm, Hb, Hx, Hf.
    cbn [emit offset emitted collected current_values timestamps clock_reads
         consumed mon_calls batches checks last_flush repeat].
    unfold fresh_times. cbn [seq map].
    rewrite <- !app_assoc. cbn [app].
    repeat split; lia.
Qed.

Lemma emit_loop_continue {D} (w : World D) N live n fuel : forall s s',
  emit_loop w N live n fuel s = Continue s' ->
  offset s' < N
  /\ exists k v,
       s' = emit_times w N live v k s
       /\ ((0 < k)%nat ->
           average (collected s) n = Return v /\ 0 <= offset s').
Proof.
  induction fuel as [| fuel IH]; intros s s' E; cbn [emit_loop] in E;
    destruct (Z.leb_spec N (offset s)) as [Hge | Hlt];
    try discriminate;
    try (injection E as <-; split; [exact Hlt |];
         exists O, 0%Q; split; [reflexivity | lia]).
  destruct (average (collected s) n) as [v | e] eqn:Ea; [| discriminate].
  destruct (IH _ _ E) as (Hlt' & k & v' & Es & Hk).
  split; [exact Hlt' |].
  exists (S k), v. destruct k as [| k].
  - cbn [emit_times] in Es |- *. split; [exact Es |].
    intros _. split; [reflexivity |]. subst s'. cbn [emit offset]. lia.
  - destruct (Hk ltac:(lia)) as (Ea' & Hpos).
    cbn [emit collected] in Ea'. rewrite Ea in Ea'. injection Ea' as <-.
    split; [exact Es |]. intros _. split; [reflexivity | exact Hpos].
Qed.

Lemma emit_loop_terminates {D} (w : World D) N live n v fuel : forall s,
  1 <= N -> average (collected s) n = Return v ->
  (Z.to_nat (offset s / N) <= fuel)%nat ->
  emit_loop w N live n fuel s
  = Continue (emit_times w N live v (Z.to_nat (offset s / N)) s).
Proof.
  induction fuel as [| fuel IH]; intros s HN Ea Hf; cbn [emit_loop];
    destruct (Z.leb_spec N (offset s)) as [Hge | Hlt].
  - assert (1 <= offset s / N) by (apply Z.div_le_lower_bound; lia). lia.
  - assert (offset s / N <= 0).
    { destruct (Z_lt_le_dec (offset s) 0) as [Hn | Hp].
      - pose proof (Z.div_lt_upper_bound (offset s) N 0 ltac:(lia) ltac:(lia)).
        lia.
      - rewrite Z.div_small by lia. lia. }
    replace (Z.to_nat (offset s / N)) with O by lia. reflexivity.
  - rewrite Ea.
    assert (Hd : offset s / N = (offset s - N) / N + 1).
    { replace (offset s) with ((offset s - N) + 1 * N) at 1 by lia.
      apply Z.div_add. lia. }
    assert (0 <= (offset s - N) / N) by (apply Z.div_pos; lia).
    rewrite IH; cbn [emit collected offset]; try assumption; try lia.
    replace (Z.to_nat (offset s / N)) with (S (Z.to_nat ((offset s - N) / N)))
      by lia.
    reflexivity.
  - assert (offset s / N <= 0).
    { destruct (Z_lt_le_dec (offset s) 0) as [Hn | Hp].
      - pose proof (Z.div_lt_upper_bound (offset s) N 0 ltac:(lia) ltac:(lia)).
        lia.
      - rewrite Z.div_small by lia. lia. }
    replace (Z.to_nat (offset s / N)) with O by lia. reflexivity.
Qed.

Lemma len_slice_from (l : list Q) (n : Z) :
  0 <= n <= len l ->
  slice_from n l = skipn (Z.to_nat n) l /\ len (slice_from n l) = len l - n.
Proof.
  intros Hn. unfold slice_from, len in *.
  destruct (Z.ltb_spec n 0); [lia |].
  split; [reflexivity |]. rewrite length_skipn. lia.
Qed.

Lemma slice_to_firstn (l : list Q) (n : Z) :
  0 <= n -> slice_to n l = firstn (Z.to_nat n) l.
Proof.
  intros Hn. unfold slice_to. destruct (Z.ltb_spec n 0); [lia | reflexivity].
Qed.

(** ** One iteration *)

Lemma iteration_collect {D} (w : World D) N R live fuel s n :
  need N R (offset s) = Return n -> (len (collected s) <? n) = true ->
  iteration w N R live fuel s
  = match CollectData w (batches s) with
    | Raise e => Raised e (collect_called s)
    | Return samples =>
        if truthy samples
        then Continue (extend (list_of samples) (collect_called s))
        else Break (collect_called s)
    end.
Proof. intros En Hl. unfold iteration. now rewrite En, Hl. Qed.

Lemma iteration_emission {D} (w : World D) N R live fuel s n :
  need N R (offset s) = Return n -> (len (collected s) <? n) = false ->
  iteration w N R live fuel s
  = match emit_loop w N live n fuel (advance (n * R) s) with
    | Continue s' => Continue (drop_consumed w n s')
    | r => r
    end.
Proof. intros En Hl. unfold iteration. now rewrite En, Hl. Qed.

(** What a completed emission branch leaves behind: [k] emissions of the
    same value, then the drop of line 110. *)
Lemma emission_continue {D} (w : World D) N R live fuel s s' n :
  need N R (offset s) = Return n -> (len (collected s) <? n) = false ->
  iteration w N R live fuel s = Continue s' ->
  exists k v,
    s' = drop_consumed w n (emit_times w N live v k (advance (n * R) s))
    /\ offset s' < N
    /\ ((0 < k)%nat -> average (collected s) n = Return v /\ 0 <= offset s').
Proof.
  intros En Hl E. rewrite (iteration_emission w N R live fuel s n En Hl) in E.
  destruct (emit_loop w N live n fuel (advance (n * R) s)) as [s2 | | |] eqn:El;
    try discriminate.
  injection E as <-.
  destruct (emit_loop_continue w N live n fuel _ _ El) as (Hlt & k & v & Es & Hk).
  exists k, v. subst s2. split; [reflexivity |].
  cbn [drop_consumed offset]. split; [exact Hlt |]. exact Hk.
Qed.

Lemma iteration_keeps_accumulator {D} (w : World D) N R live fuel s s' :
  1 <= N -> 1 <= R ->
  accumulator_ok N R s ->
  iteration w N R live fuel s = Continue s' ->
  accumulator_ok N R s'.
Proof.
  intros HN HR (Hinv & Hrange) E.
  assert (En : need N R (offset s) = Return ((N - offset s + R - 1) / R))
    by (apply need_floor; lia).
  set (n := (N - offset s + R - 1) / R) in *.
  pose proof (need_bracket N R (offset s) n ltac:(lia) ltac:(lia) En) as B.
  destruct (len (collected s) <? n) eqn:Hl.
  - rewrite (iteration_collect w N R live fuel s n En Hl) in E.
    destruct (CollectData w (batches s)) as [samples | e]; [| discriminate].
    destruct (truthy samples); [| discriminate].
    injection E as <-. split; cbn; assumption.
  - destruct (emission_continue w N R live fuel s s' n En Hl E)
      as (k & v & -> & Hlt & Hk).
    destruct (emit_times_fields w N live v k (advance (n * R) s))
      as (Ho & He & Hc & _ & _ & _ & Hg & _).
    cbn [advance offset emitted collected consumed] in Ho, He, Hc, Hg.
    apply Z.ltb_ge in Hl.
    destruct (len_slice_from (collected s) n ltac:(nia)) as (_ & Hd).
    unfold accumulator_ok.
    cbn [drop_consumed offset emitted consumed] in Hlt, Hk |- *.
    rewrite Hc, Hd, He, Hg. rewrite Ho in Hlt, Hk |- *.
    split; [nia |].
    split; [| exact Hlt].
    destruct k as [| k]; [nia | apply Hk; lia].
Qed.

(** Every state the sequential loop passes through is [at_top]: the run
    ends from a state reached by completed iterations only. *)
Lemma loop_passes_at_top {D} (w : World D) N R live fuel : forall s r,
  at_top w N R live s ->
  loop w N R live fuel s = Some r ->
  exists t fuel', at_top w N R live t
    /\ match r with
       | Cancelled s' => s' = checked t
       | EndOfStream s' => iteration w N R live fuel' (checked t) = Break s'
       | Thrown e s' => iteration w N R live fuel' (checked t) = Raised e s'
       end.
Proof.
  induction fuel as [| fuel IH]; intros s r Hs E; [discriminate |].
  cbn [loop] in E.
  destruct (is_set w (checks s)).
  - injection E as <-. exists s, O. split; [exact Hs | reflexivity].
  - destruct (iteration w N R live (S fuel) (checked s)) as [s' | s' | e s' |] eqn:Ei;
      try discriminate.
    + apply (IH s' r); [| exact E]. eapply top_next; eassumption.
    + injection E as <-. exists s, (S fuel). split; [exact Hs | exact Ei].
    + injection E as <-. exists s, (S fuel). split; [exact Hs | exact Ei].
Qed.

(** C1: for rates at least 1, every state of the collection loop at the
    top of an iteration, reached from the initial locals ([offset = 0],
    nothing consumed, nothing emitted), satisfies
    [offset = consumed * OutputRate - emitted * NativeRate] and
    [0 <= offset < NativeRate]. *)
Theorem accumulator_invariant {D} (w : World D) (N R : Z) (live : bool) (s : State) :
  1 <= N -> 1 <= R ->
  at_top w N R live s ->
  offset s = consumed s * R - emitted s * N /\ 0 <= offset s < N.
Proof.
  intros HN HR H. change (accumulator_ok N R s).
  induction H as [| s fuel s' _ IH E].
  - split; cbn; lia.
  - apply (iteration_keeps_accumulator w N R live fuel (checked s) s' HN HR);
      [| exact E].
    destruct IH as (I1 & I2). split; cbn; assumption.
Qed.

Lemma iterations_at_top {D} (w : World D) N R live fuel k : forall s s',
  at_top w N R live s ->
  iterations w N R live fuel k s = Some s' ->
  at_top w N R live s'.
Proof.
  induction k as [| k IH]; intros s s' Hs E; cbn [iterations] in E.
  - now injection E as <-.
  - destruct (iteration w N R live fuel (checked s)) as [t | | |] eqn:Ei;
      try discriminate.
    apply (IH t s'); [| exact E]. eapply top_next; eassumption.
Qed.

Lemma accumulator_invariant_witness :
  exists s,
    at_top (sample_world 0 steady 9) 3 2 false s
    /\ emitted s = 1
    /\ offset s = consumed s * 2 - emitted s * 3 /\ 0 <= offset s < 3.
Proof.
  destruct (iterations (sample_world 0 steady 9) 3 2 false 4 2
              (prelude (sample_world 0 steady 9) 2)) as [s |] eqn:E;
    [| vm_compute in E; discriminate].
  assert (H : at_top (sample_world 0 steady 9) 3 2 false s)
    by (apply (iterations_at_top _ 3 2 false 4 2 _ s (top_first _ _ _ _) E)).
  exists s. split; [exact H |].
  split; [vm_compute in E; injection E as <-; reflexivity |].
  apply (accumulator_invariant (sample_world 0 steady 9) 3 2 false s);
    [lia | lia | exact H].
Defined.

(** ** The emission branch *)

Lemma average_returns (l : list Q) (n : Z) (v : Q) :
  average l n = Return v ->
  n <> 0 /\ v = (sum (slice_to n l) / inject_Z n)%Q.
Proof.
  unfold average, truediv. destruct (Z.eqb_spec n 0) as [-> | Hn];
    [discriminate |].
  intros E. injection E as <-. split; [exact Hn | reflexivity].
Qed.

(** C4: when the emission branch runs to completion with [k] passes of
    the inner loop, the [k] values appended are one and the same, the mean
    of the first [need] pending samples; the [k] timestamps appended come
    from [k] successive readings of the clock; and [collected] loses its
    first [need] samples once, after the inner loop, whatever [k] is. *)
Theorem multi_emit {D} (w : World D) (N R : Z) (live : bool) (fuel : nat)
    (s s' : State) (n : Z) :
  need N R (offset s) = Return n ->
  (len (collected s) <? n) = false ->
  iteration w N R live fuel s = Continue s' ->
  exists (k : nat) (v : Q),
    ((0 < k)%nat ->
       n <> 0 /\ v = (sum (slice_to n (collected s)) / inject_Z n)%Q)
    /\ current_values s' = current_values s ++ repeat v k
    /\ timestamps s' = timestamps s ++ fresh_times w (clock_reads s) k
    /\ emitted s' = emitted s + Z.of_nat k
    /\ offset s' = offset s + n * R - Z.of_nat k * N
    /\ collected s' = slice_from n (collected s)
    /\ consumed s' = consumed s + (len (collected s) - len (collected s'))
    /\ (0 <= n ->
        slice_to n (collected s) = firstn (Z.to_nat n) (collected s)
        /\ collected s' = skipn (Z.to_nat n) (collected s)
        /\ len (collected s') = len (collected s) - n).
Proof.
  intros En Hl E.
  destruct (emission_continue w N R live fuel s s' n En Hl E)
    as (k & v & -> & _ & Hk).
  destruct (emit_times_fields w N live v k (advance (n * R) s))
    as (Ho & He & Hc & Hv & Ht & _).
  cbn [advance offset emitted collected current_values timestamps clock_reads]
    in Ho, He, Hc, Hv, Ht.
  exists k, v.
  cbn [drop_consumed offset emitted collected current_values timestamps consumed].
  rewrite Hc.
  split.
  { intros Hpos. apply average_returns. apply Hk. exact Hpos. }
  split; [exact Hv |]. split; [exact Ht |]. split; [exact He |].
  split; [exact Ho |]. split; [reflexivity |].
  split.
  { f_equal.
    destruct (emit_times_fields w N live v k (advance (n * R) s))
      as (_ & _ & _ & _ & _ & _ & Hg & _). exact Hg. }
  intros Hn. apply Z.ltb_ge in Hl.
  destruct (len_slice_from (collected s) n ltac:(lia)) as (Hs & Hd).
  split; [apply slice_to_firstn; exact Hn |].
  split; [exact Hs | exact Hd].
Qed.

Lemma multi_emit_witness :
  exists s',
    iteration (sample_world 0 steady 9) 2 5 false 3 (sample_pending 5)
      = Continue s'
    /\ length (current_values s') = 2%nat
    /\ exists (k : nat) (v : Q),
         ((0 < k)%nat ->
            1 <> 0
            /\ v = (sum (slice_to 1 (collected (sample_pending 5)))
                    / inject_Z 1)%Q)
         /\ current_values s' = current_values (sample_pending 5) ++ repeat v k
         /\ timestamps s'
            = timestamps (sample_pending 5)
              ++ fresh_times (sample_world 0 steady 9)
                   (clock_reads (sample_pending 5)) k
         /\ emitted s' = emitted (sample_pending 5) + Z.of_nat k
         /\ offset s' = offset (sample_pending 5) + 1 * 5 - Z.of_nat k * 2
         /\ collected s' = slice_from 1 (collected (sample_pending 5))
         /\ consumed s'
            = consumed (sample_pending 5)
              + (len (collected (sample_pending 5)) - len (collected s'))
         /\ (0 <= 1 ->
             slice_to 1 (collected (sample_pending 5))
             = firstn (Z.to_nat 1) (collected (sample_pending 5))
             /\ collected s'
                = skipn (Z.to_nat 1) (collected (sample_pending 5))
             /\ len (collected s') = len (collected (sample_pending 5)) - 1).
Proof.
  destruct (iteration (sample_world 0 steady 9) 2 5 false 3 (sample_pending 5))
    as [s' | | |] eqn:E; try (vm_compute in E; discriminate).
  exists s'. split; [reflexivity |].
  split; [vm_compute in E; injection E as <-; reflexivity |].
  apply (multi_emit (sample_world 0 steady 9) 2 5 false 3 (sample_pending 5) s' 1);
    [reflexivity | reflexivity | exact E].
Defined.

(** ** The two output lists grow together *)

Lemma emit_times_lockstep {D} (w : World D) N live v k s :
  lockstep s -> lockstep (emit_times w N live v k s).
Proof.
  unfold lockstep. intros H.
  destruct (emit_times_fields w N live v k s) as (_ & _ & _ & Hv & Ht & _).
  rewrite Hv, Ht, !length_app, repeat_length. unfold fresh_times.
  rewrite length_map, length_seq. lia.
Qed.

(** The inner loop can only raise at its first pass: the division of
    line 101 has the same operands at every pass. *)
Lemma emit_loop_raised {D} (w : World D) N live n fuel : forall s e s',
  emit_loop w N live n fuel s = Raised e s' ->
  s' = s /\ average (collected s) n = Raise e /\ N <= offset s.
Proof.
  induction fuel as [| fuel IH]; intros s e s' E; cbn [emit_loop] in E;
    destruct (Z.leb_spec N (offset s)) as [Hge | Hlt]; try discriminate.
  destruct (average (collected s) n) as [v | e0] eqn:Ea.
  - destruct (IH _ _ _ E) as (_ & Ea' & _).
    cbn [emit collected] in Ea'. congruence.
  - injection E as <- <-. repeat split; assumption.
Qed.

Lemma emit_loop_never_breaks {D} (w : World D) N live n fuel : forall s s',
  emit_loop w N live n fuel s <> Break s'.
Proof.
  induction fuel as [| fuel IH]; intros s s' E; cbn [emit_loop] in E;
    destruct (N <=? offset s); try discriminate.
  destruct (average (collected s) n); [| discriminate].
  exact (IH _ _ E).
Qed.

(** The state in which an iteration ends, when it ends. *)
Lemma iteration_lockstep {D} (w : World D) N R live fuel s :
  lockstep s ->
  match iteration w N R live fuel s with
  | Continue s' | Break s' | Raised _ s' => lockstep s'
  | OutOfFuel => True
  end.
Proof.
  intros H. unfold iteration.
  destruct (need N R (offset s)) as [n | e]; [| exact H].
  destruct (len (collected s) <? n).
  - destruct (CollectData w (batches s)) as [samples | e]; [| exact H].
    destruct (truthy samples); exact H.
  - destruct (emit_loop w N live n fuel (advance (n * R) s))
      as [s' | s' | e s' |] eqn:El.
    + destruct (emit_loop_continue w N live n fuel _ _ El) as (_ & k & v & -> & _).
      apply (emit_times_lockstep w N live v k (advance (n * R) s)). exact H.
    + exfalso. exact (emit_loop_never_breaks w N live n fuel _ _ El).
    + destruct (emit_loop_raised w N live n fuel _ _ _ El) as (-> & _). exact H.
    + exact I.
Qed.

Lemma at_top_lockstep {D} (w : World D) N R live s :
  at_top w N R live s -> lockstep s.
Proof.
  intros H. induction H as [| s fuel s' _ IH E].
  - reflexivity.
  - pose proof (iteration_lockstep w N R live fuel (checked s) IH) as L.
    now rewrite E in L.
Qed.

(** C10: in the emission branch, from an offset in [[0, NativeRate)] with
    [OutputRate >= 1], line 97 brings [offset] to at least [NativeRate], so
    the inner loop runs at least once: with enough fuel the iteration
    completes having appended [k >= 1] values and as many timestamps while
    dropping [need] raw samples.  The two output lists have the same
    length after every iteration that starts with lists of the same
    length, hence at the top of every iteration of a run. *)
Theorem emission_emits {D} (w : World D) (N R : Z) (live : bool)
    (s : State) (n : Z) :
  1 <= R -> 0 <= offset s < N ->
  need N R (offset s) = Return n ->
  (len (collected s) <? n) = false ->
  N <= offset s + n * R
  /\ (exists k : nat,
        (1 <= k)%nat
        /\ forall fuel, (k <= fuel)%nat ->
           exists s',
             iteration w N R live fuel s = Continue s'
             /\ length (current_values s') = (length (current_values s) + k)%nat
             /\ length (timestamps s') = (length (timestamps s) + k)%nat
             /\ emitted s' = emitted s + Z.of_nat k
             /\ len (collected s') = len (collected s) - n)
  /\ (forall fuel s',
        iteration w N R live fuel s = Continue s' ->
        (length (current_values s) < length (current_values s'))%nat
        /\ (lockstep s -> lockstep s'))
  /\ (forall t, at_top w N R live t -> lockstep t).
Proof.
  intros HR Hoff En Hl.
  pose proof (need_bracket N R (offset s) n HR ltac:(lia) En) as B.
  pose proof (need_at_least_one N R (offset s) n HR ltac:(lia) En) as Hn.
  assert (Hge : N <= offset s + n * R) by lia.
  split; [exact Hge |].
  pose proof (average_defined (collected s) n ltac:(lia)) as Ea.
  set (v := (sum (slice_to n (collected s)) / inject_Z n)%Q) in *.
  set (k := Z.to_nat ((offset s + n * R) / N)).
  assert (Hk : (1 <= k)%nat).
  { assert (1 <= (offset s + n * R) / N)
      by (apply Z.div_le_lower_bound; lia). lia. }
  split; [| split].
  - exists k. split; [exact Hk |]. intros fuel Hf.
    exists (drop_consumed w n (emit_times w N live v k (advance (n * R) s))).
    rewrite (iteration_emission w N R live fuel s n En Hl).
    rewrite (emit_loop_terminates w N live n v fuel (advance (n * R) s));
      cbn [advance offset collected]; try assumption; try lia.
    fold k. split; [reflexivity |].
    destruct (emit_times_fields w N live v k (advance (n * R) s))
      as (_ & He & Hc & Hv & Ht & _).
    cbn [advance emitted collected current_values timestamps clock_reads]
      in He, Hc, Hv, Ht.
    cbn [drop_consumed current_values timestamps emitted collected].
    rewrite Hv, Ht, Hc, He, !length_app, repeat_length.
    unfold fresh_times. rewrite length_map, length_seq.
    apply Z.ltb_ge in Hl.
    destruct (len_slice_from (collected s) n ltac:(lia)) as (_ & Hd).
    repeat split; try reflexivity. exact Hd.
  - intros fuel s' E.
    pose proof (iteration_lockstep w N R live fuel s) as L. rewrite E in L.
    split; [| exact L].
    destruct (emission_continue w N R live fuel s s' n En Hl E)
      as (j & u & -> & Hlt & _).
    destruct (emit_times_fields w N live u j (advance (n * R) s))
      as (Ho & _ & _ & Hv & _).
    cbn [advance offset current_values] in Ho, Hv.
    cbn [drop_consumed offset current_values] in Hlt |- *.
    rewrite Hv, length_app, repeat_length.
    rewrite Ho in Hlt. destruct j; [lia | lia].
  - intros t Ht. exact (at_top_lockstep w N R live t Ht).
Qed.

Lemma emission_emits_witness :
  2 <= offset (sample_pending 5) + 1 * 5
  /\ (exists k : nat,
        (1 <= k)%nat
        /\ forall fuel, (k <= fuel)%nat ->
           exists s',
             iteration (sample_world 0 steady 9) 2 5 false fuel (sample_pending 5)
               = Continue s'
             /\ length (current_values s')
                = (length (current_values (sample_pending 5)) + k)%nat
             /\ length (timestamps s')
                = (length (timestamps (sample_pending 5)) + k)%nat
             /\ emitted s' = emitted (sample_pending 5) + Z.of_nat k
             /\ len (collected s') = len (collected (sample_pending 5)) - 1)
  /\ (forall fuel s',
        iteration (sample_world 0 steady 9) 2 5 false fuel (sample_pending 5)
          = Continue s' ->
        (length (current_values (sample_pending 5))
         < length (current_values s'))%nat
        /\ (lockstep (sample_pending 5) -> lockstep s'))
  /\ (forall t, at_top (sample_world 0 steady 9) 2 5 false t -> lockstep t).
Proof.
  apply (emission_emits (sample_world 0 steady 9) 2 5 false (sample_pending 5) 1).
  - lia.
  - cbn. lia.
  - reflexivity.
  - reflexivity.
Defined.

(** ** Calls made on the monitor *)

Lemma emit_times_calls {D} (w : World D) N live v k s :
  calls_shape s -> calls_shape (emit_times w N live v k s).
Proof.
  unfold calls_shape.
  destruct (emit_times_fields w N live v k s)
    as (_ & _ & _ & _ & _ & _ & _ & Hm & Hb & _).
  now rewrite Hm, Hb.
Qed.

Lemma collect_called_calls (s : State) :
  calls_shape s -> calls_shape (collect_called s).
Proof.
  unfold calls_shape. cbn [collect_called call mon_calls batches]. intros ->.
  rewrite <- app_assoc. f_equal. symmetry. apply repeat_cons.
Qed.

Lemma iteration_calls {D} (w : World D) N R live fuel s :
  calls_shape s ->
  match iteration w N R live fuel s with
  | Continue s' | Break s' | Raised _ s' => calls_shape s'
  | OutOfFuel => True
  end.
Proof.
  intros H. unfold iteration.
  destruct (need N R (offset s)) as [n | e]; [| exact H].
  destruct (len (collected s) <? n).
  - pose proof (collect_called_calls s H) as H'.
    destruct (CollectData w (batches s)) as [samples | e]; [| exact H'].
    destruct (truthy samples); exact H'.
  - destruct (emit_loop w N live n fuel (advance (n * R) s))
      as [s' | s' | e s' |] eqn:El.
    + destruct (emit_loop_continue w N live n fuel _ _ El) as (_ & k & v & -> & _).
      apply (emit_times_calls w N live v k (advance (n * R) s)). exact H.
    + exfalso. exact (emit_loop_never_breaks w N live n fuel _ _ El).
    + destruct (emit_loop_raised w N live n fuel _ _ _ El) as (-> & _). exact H.
    + exact I.
Qed.

Lemma loop_end_shape {D} (w : World D) N R live fuel : forall s r,
  calls_shape s -> lockstep s ->
  loop w N R live fuel s = Some r ->
  calls_shape (end_state r) /\ lockstep (end_state r).
Proof.
  induction fuel as [| fuel IH]; intros s r Hc Hl E; [discriminate |].
  cbn [loop] in E.
  destruct (is_set w (checks s)).
  - injection E as <-. split; assumption.
  - pose proof (iteration_calls w N R live (S fuel) (checked s) Hc) as C.
    pose proof (iteration_lockstep w N R live (S fuel) (checked s) Hl) as L.
    destruct (iteration w N R live (S fuel) (checked s)) as [s' | s' | e s' |];
      try discriminate.
    + exact (IH s' r C L E).
    + injection E as <-. split; assumption.
    + injection E as <-. split; assumption.
Qed.

(** C8: however the collection loop ends (stop event seen, empty batch,
    or an exception caught by line 115), [_take_samples] returns after a
    [StopDataCollection] call that follows every call made by the loop:
    the calls on the monitor are those of the prelude, one [CollectData]
    per batch requested, and the final [StopDataCollection]. *)
Theorem stop_collection_on_every_exit {D} (w : World D)
    (sample_hz sample_offset : Z) (live : bool) (fuel : nat) (r : loop_end) :
  loop w (native_rate w) sample_hz live fuel (prelude w sample_hz) = Some r ->
  exists res,
    _take_samples w sample_hz sample_offset live fuel = Some res
    /\ ended res = r
    /\ mon_calls (final res)
       = mon_calls (end_state r) ++ [CallStopDataCollection]
    /\ mon_calls (final res)
       = prelude_calls
         ++ repeat CallCollectData (batches (final res))
         ++ [CallStopDataCollection].
Proof.
  intros E. unfold _take_samples. rewrite E.
  eexists. split; [reflexivity |]. split; [reflexivity |].
  split; [reflexivity |].
  destruct (loop_end_shape w (native_rate w) sample_hz live fuel
              (prelude w sample_hz) r eq_refl eq_refl E) as (Hc & _).
  cbn [epilogue final call mon_calls batches].
  rewrite Hc. now rewrite <- app_assoc.
Qed.

Lemma stop_collection_on_every_exit_witness :
  exists r res,
    loop (sample_world 1 steady 3) 1000 500 false 9
      (prelude (sample_world 1 steady 3) 500) = Some r
    /\ _take_samples (sample_world 1 steady 3) 500 0 false 9 = Some res
    /\ ended res = r
    /\ mon_calls (final res)
       = mon_calls (end_state r) ++ [CallStopDataCollection]
    /\ mon_calls (final res)
       = prelude_calls
         ++ repeat CallCollectData (batches (final res))
         ++ [CallStopDataCollection].
Proof.
  destruct (loop (sample_world 1 steady 3) 1000 500 false 9
              (prelude (sample_world 1 steady 3) 500)) as [r |] eqn:E;
    [| vm_compute in E; discriminate].
  exists r.
  destruct (stop_collection_on_every_exit (sample_world 1 steady 3) 500 0
              false 9 r E) as (res & H).
  exists res. split; [reflexivity | exact H].
Defined.

(** The three ways out of the loop all occur. *)
Example exit_by_cancellation :
  exists res s,
    _take_samples (sample_world 1 steady 3) 500 0 false 9 = Some res
    /\ ended res = Cancelled s
    /\ current_values (final res) = [(1 + 3) / 2; (5 + 7) / 2]%Q
    /\ timestamps (final res) = [1000; 1001].
Proof. vm_compute. eexists. eexists. repeat split. Qed.

Example exit_by_end_of_stream :
  exists res s,
    _take_samples (sample_world 1 exhausted 3) 500 0 false 9 = Some res
    /\ ended res = EndOfStream s
    /\ result_data res = None.
Proof. vm_compute. eexists. eexists. repeat split. Qed.

Example exit_by_fault :
  exists res s,
    _take_samples (sample_world 1 (failing_after 1) 9) 500 0 false 9 = Some res
    /\ ended res = Thrown (MonsoonError 1) s
    /\ result_data res = Some ([(1 + 3) / 2; (5 + 7) / 2]%Q, [1000; 1001]).
Proof. vm_compute. eexists. eexists. repeat split. Qed.

(** A monitor that reports a sample rate of 0 makes the averaging
    division of line 101 fail; that fault too ends the run quietly. *)
Example exit_by_average_fault :
  need (native_rate (sample_world 0 steady 9)) 2 0 = Return 0
  /\ average [] 0 = Raise ZeroDivisionError
  /\ exists res s,
       _take_samples (sample_world 0 steady 9) 2 0 false 1 = Some res
       /\ ended res = Thrown ZeroDivisionError s
       /\ result_data res = None.
Proof.
  split; [reflexivity |]. split; [reflexivity |].
  vm_compute. eexists. eexists. repeat split.
Qed.

(** ** Faults inside the loop *)


(** The series only grows from one iteration to the next. *)
Lemma iteration_extends_series {D} (w : World D) N R live fuel s s' :
  iteration w N R live fuel s = Continue s' ->
  exists vs ts,
    current_values s' = current_values s ++ vs
    /\ timestamps s' = timestamps s ++ ts.
Proof.
  unfold iteration. intros E.
  destruct (need N R (offset s)) as [n | e0]; [| discriminate].
  destruct (len (collected s) <? n).
  - destruct (CollectData w (batches s)) as [samples | e1]; [| discriminate].
    destruct (truthy samples); [| discriminate].
    injection E as <-. exists [], []. cbn. now rewrite !app_nil_r.
  - destruct (emit_loop w N live n fuel (advance (n * R) s))
      as [t | t | e1 t |] eqn:El; try discriminate.
    injection E as <-.
    destruct (emit_loop_continue w N live n fuel _ _ El) as (_ & k & v & -> & _).
    destruct (emit_times_fields w N live v k (advance (n * R) s))
      as (_ & _ & _ & Hv & Ht & _).
    eexists. eexists. cbn [drop_consumed current_values timestamps].
    split; [exact Hv | exact Ht].
Qed.



(** ** An empty first batch *)

(** C9: with rates at least 1 and the stop event clear at the first
    check, if the first [CollectData] call returns nothing (an empty
    batch or [None]), the loop ends at its first iteration by the [break]
    of line 92, after that single call; no value and no timestamp has been
    appended; [MonsoonData] receives two empty lists, and when it raises,
    [self.data] is [None] and [_take_samples] returns normally. *)
Theorem empty_first_batch_ends_run {D} (w : World D)
    (sample_hz sample_offset : Z) (live : bool) (fuel : nat)
    (samples : option (list Q)) :
  1 <= native_rate w -> 1 <= sample_hz ->
  is_set w 0%nat = false ->
  CollectData w 0%nat = Return samples -> truthy samples = false ->
  (1 <= fuel)%nat ->
  exists res s,
    _take_samples w sample_hz sample_offset live fuel = Some res
    /\ ended res = EndOfStream s
    /\ checks (final res) = 1%nat
    /\ batches (final res) = 1%nat
    /\ emitted (final res) = 0
    /\ current_values (final res) = []
    /\ timestamps (final res) = []
    /\ result_data res = assemble w sample_hz sample_offset [] []
    /\ ((exists e,
           MonsoonData w [] [] sample_hz (GetVoltage w) sample_offset = Raise e)
        -> result_data res = None).
Proof.
  intros HN HR Hset Hc Ht Hf.
  destruct fuel as [| fuel]; [lia |].
  pose (s0 := prelude w sample_hz).
  assert (Ho : offset (checked s0) = 0) by reflexivity.
  assert (En : need (native_rate w) sample_hz (offset (checked s0))
               = Return ((native_rate w - 0 + sample_hz - 1) / sample_hz))
    by (rewrite Ho; apply need_floor; lia).
  pose proof (need_at_least_one (native_rate w) sample_hz
                (offset (checked s0)) _ HR ltac:(rewrite Ho; lia) En) as Hn.
  assert (Ei : iteration w (native_rate w) sample_hz live (S fuel) (checked s0)
               = Break (collect_called (checked s0))).
  { rewrite (iteration_collect w _ _ live (S fuel) (checked s0) _ En).
    - change (batches (checked s0)) with 0%nat. now rewrite Hc, Ht.
    - apply Z.ltb_lt. change (len (collected (checked s0))) with 0. lia. }
  unfold _take_samples. change (prelude w sample_hz) with s0. cbn [loop].
  change (checks s0) with 0%nat. rewrite Hset, Ei.
  eexists. eexists. split; [reflexivity |].
  repeat (split; [reflexivity |]).
  intros (e & He). cbn [epilogue result_data]. unfold assemble.
  cbn. now rewrite He.
Qed.

Lemma empty_first_batch_ends_run_witness :
  exists res s,
    _take_samples (sample_world 5 exhausted 9) 5 0 false 1 = Some res
    /\ ended res = EndOfStream s
    /\ checks (final res) = 1%nat
    /\ batches (final res) = 1%nat
    /\ emitted (final res) = 0
    /\ current_values (final res) = []
    /\ timestamps (final res) = []
    /\ result_data res = assemble (sample_world 5 exhausted 9) 5 0 [] []
    /\ ((exists e,
           MonsoonData (sample_world 5 exhausted 9) [] [] 5
             (GetVoltage (sample_world 5 exhausted 9)) 0 = Raise e)
        -> result_data res = None).
Proof.
  apply (empty_first_batch_ends_run (sample_world 5 exhausted 9) 5 0 false 1 None).
  - vm_compute. discriminate.
  - lia.
  - reflexivity.
  - reflexivity.
  - reflexivity.
  - lia.
Defined.

(** ** A rate that is not positive *)

(** With [sample_hz = 0] nothing is rejected when the thread is started:
    [start()] returns normally, and the division by zero is met by the
    worker at line 88, after [StartDataCollection]. *)
Lemma zero_rate_is_met_inside_the_loop :
  MonsoonReader.start (MonsoonReader.__init__ (list Q * list Z) 0 0 false)
    = Return (MonsoonReader.with_state Started (MonsoonReader.__init__ (list Q * list Z) 0 0 false))
  /\ (forall e, MonsoonReader.start (MonsoonReader.__init__ (list Q * list Z) 0 0 false) <> Raise e)
  /\ need (native_rate (sample_world 5 steady 9)) 0 0 = Raise ZeroDivisionError
  /\ exists res s,
       _take_samples (sample_world 5 steady 9) 0 0 false 1 = Some res
       /\ ended res = Thrown ZeroDivisionError s
       /\ mon_calls s = prelude_calls.
Proof.
  split; [reflexivity |].
  split; [intros e; discriminate |].
  split; [reflexivity |].
  vm_compute. eexists. eexists. repeat split.
Qed.

(** C5 (amended): [start()] does not validate the rate: with
    [sample_hz <= 0] it starts the worker as for any other value.  With
    [sample_hz = 0] and the stop event clear at the first check, the first
    need computation raises [ZeroDivisionError] inside the loop; the
    handler of line 115 catches it, so the run ends with an empty series
    after the [StopDataCollection] call and [self.data] is what
    [MonsoonData] makes of two empty lists.  With [sample_hz < 0] the need
    computation does not raise. *)
Theorem nonpositive_rate_is_not_rejected {D} (w : World D)
    (sample_hz sample_offset : Z) (live : bool) :
  sample_hz <= 0 ->
  MonsoonReader.start (MonsoonReader.__init__ D sample_hz sample_offset live)
    = Return (MonsoonReader.with_state Started (MonsoonReader.__init__ D sample_hz sample_offset live))
  /\ (sample_hz = 0 -> is_set w 0%nat = false ->
      forall fuel, (1 <= fuel)%nat ->
      exists res s,
        _take_samples w sample_hz sample_offset live fuel = Some res
        /\ ended res = Thrown ZeroDivisionError s
        /\ current_values (final res) = []
        /\ timestamps (final res) = []
        /\ mon_calls (final res) = prelude_calls ++ [CallStopDataCollection]
        /\ result_data res = assemble w sample_hz sample_offset [] [])
  /\ (sample_hz < 0 ->
      forall N off, exists n, need N sample_hz off = Return n).
Proof.
  intros Hle. split; [reflexivity |]. split.
  - intros -> Hset fuel Hf. destruct fuel as [| fuel]; [lia |].
    unfold _take_samples. cbn [loop].
    change (checks (prelude w 0)) with 0%nat. rewrite Hset.
    eexists. eexists. split; [reflexivity |]. repeat split.
  - intros Hneg N off. unfold need, int_truediv.
    destruct (Z.eqb_spec sample_hz 0); [lia |]. eexists. reflexivity.
Qed.

Lemma nonpositive_rate_is_not_rejected_witness :
  MonsoonReader.start (MonsoonReader.__init__ (list Q * list Z) 0 0 false)
    = Return (MonsoonReader.with_state Started (MonsoonReader.__init__ (list Q * list Z) 0 0 false))
  /\ (0 = 0 -> is_set (sample_world 5 steady 9) 0%nat = false ->
      forall fuel, (1 <= fuel)%nat ->
      exists res s,
        _take_samples (sample_world 5 steady 9) 0 0 false fuel = Some res
        /\ ended res = Thrown ZeroDivisionError s
        /\ current_values (final res) = []
        /\ timestamps (final res) = []
        /\ mon_calls (final res) = prelude_calls ++ [CallStopDataCollection]
        /\ result_data res = assemble (sample_world 5 steady 9) 0 0 [] [])
  /\ (0 < 0 ->
      forall N off, exists n, need N 0 off = Return n).
Proof.
  apply (nonpositive_rate_is_not_rejected (sample_world 5 steady 9) 0 0 false).
  lia.
Defined.

(** ** Stopping the thread *)

Lemma finish_series {D} (w : World D) (e : loop_end) (r : MonsoonReader.self D) :
  series (MonsoonReader.state (MonsoonReader.finish w e r)) = series_in (end_state e)
  /\ MonsoonReader._please_stop (MonsoonReader.finish w e r) = MonsoonReader._please_stop r.
Proof. split; reflexivity. Qed.

(** While the worker is not inside an iteration and the event is set, no
    step changes the series, and the worker does not enter an iteration. *)
Lemma quiet_step {D} (w : World D) (x y : System D) :
  stop_requested x -> ~ in_body x -> sys_step w x y ->
  stop_requested y /\ ~ in_body y /\ series_of y = series_of x.
Proof.
  unfold stop_requested, in_body, series_of.
  intros Hf Hb Hs. destruct Hs as [r r' Es | r | r s Et | r Et | r r' c Hw];
    cbn [reader] in *.
  - unfold MonsoonReader.start in Es. destruct (MonsoonReader.state r) eqn:Et; try discriminate.
    injection Es as <-. cbn. split; [exact Hf |].
    split; [intros (s & E); discriminate | reflexivity].
  - split; [reflexivity |]. split; [exact Hb | reflexivity].
  - split; [exact Hf |]. split; [exact Hb | reflexivity].
  - split; [exact Hf |]. split; [exact Hb | reflexivity].
  - destruct Hw as [r Et | r s Et Eset | r s Et Eset
                   | r s fuel s' Et Ei | r s fuel s' Et Ei
                   | r s fuel e s' Et Ei];
      try (exfalso; apply Hb; exists s; exact Et).
    + cbn. rewrite Et. split; [exact Hf |].
      split; [intros (s & E); discriminate | reflexivity].
    + cbn. rewrite Et. split; [exact Hf |].
      split; [intros (t & E); discriminate | reflexivity].
    + congruence.
Qed.

Lemma quiet_steps {D} (w : World D) (x y : System D) :
  sys_steps w x y ->
  stop_requested x -> ~ in_body x ->
  stop_requested y /\ ~ in_body y /\ series_of y = series_of x.
Proof.
  induction 1 as [x | x y z Hs _ IH]; intros Hf Hb.
  - repeat split; assumption.
  - destruct (quiet_step w x y Hf Hb Hs) as (Hf' & Hb' & E).
    destruct (IH Hf' Hb') as (Hf'' & Hb'' & E').
    repeat split; try assumption. congruence.
Qed.

(** With the event set and the worker inside an iteration, the series
    changes at most by what that iteration appends. *)
Lemma stop_requested_steps {D} (w : World D) (x y : System D) :
  sys_steps w x y ->
  stop_requested x ->
  series_of y = series_of x
  \/ exists s fuel s',
       MonsoonReader.state (reader x) = InBody s
       /\ step_state (iteration w (native_rate w) (MonsoonReader.sample_hz (reader x))
                        (MonsoonReader.live (reader x)) fuel s) = Some s'
       /\ series_of y = series_in s'.
Proof.
  induction 1 as [x | x y z Hs Hrest IH]; intros Hf; [left; reflexivity |].
  destruct (MonsoonReader.state (reader x)) as [| | s | s | s] eqn:Et;
    try (left;
         assert (Hb : ~ in_body x)
           by (intros (t & E); unfold in_body in *; congruence);
         destruct (quiet_step w x y Hf Hb Hs) as (Hf' & Hb' & E);
         destruct (quiet_steps w y z Hrest Hf' Hb') as (_ & _ & E');
         congruence).
  destruct Hs as [r r' Es | r | r s0 Et0 | r Et0 | r r' c Hw];
    cbn [reader] in *.
  - unfold MonsoonReader.start in Es. rewrite Et in Es. discriminate.
  - destruct (IH eq_refl) as [E | (s0 & fuel & s' & Et0 & Ei & E)].
    + left. exact E.
    + right. exists s0, fuel, s'. cbn in Et0, Ei.
      split; [congruence |]. split; assumption.
  - congruence.
  - congruence.
  - assert (Q : forall r'' : MonsoonReader.self D,
               stop_requested (mkSystem r'' c) ->
               ~ in_body (mkSystem r'' c) ->
               sys_steps w (mkSystem r'' c) z ->
               series_of z = series (MonsoonReader.state r'')).
    { intros r'' Hf' Hb' Hz.
      destruct (quiet_steps w _ z Hz Hf' Hb') as (_ & _ & E). exact E. }
    destruct Hw as [r Et0 | r s0 Et0 Eset | r s0 Et0 Eset
                   | r s0 fuel s' Et0 Ei | r s0 fuel s' Et0 Ei
                   | r s0 fuel e s' Et0 Ei];
      try congruence;
      assert (s0 = s) by congruence; subst s0;
      right; exists s, fuel; eexists; (split; [reflexivity |]);
      rewrite Ei; (split; [reflexivity |]);
      apply Q in Hrest; try exact Hrest; try exact Hf;
      try (intros (t & E); discriminate).
Qed.

(** [stop()] sets the event before it joins, and returns from the join
    only once the worker has terminated. *)
Lemma stop_protocol_step {D} (w : World D) (x y : System D) :
  sys_step w x y ->
  (owner x <> Outside -> stop_requested x) ->
  (owner x = StopReturned -> exists s, MonsoonReader.state (reader x) = Terminated s) ->
  (owner y <> Outside -> stop_requested y)
  /\ (owner y = StopReturned -> exists s, MonsoonReader.state (reader y) = Terminated s).
Proof.
  unfold stop_requested.
  intros Hs Hf Ht. destruct Hs as [r r' Es | r | r s Et | r Et | r r' c Hw];
    cbn [reader owner] in *.
  - split; [intros H; now elim H | discriminate].
  - split; [reflexivity | discriminate].
  - split; [intros _; apply Hf; discriminate | intros _; exists s; exact Et].
  - split; [intros _; apply Hf; discriminate | discriminate].
  - destruct Hw; cbn; split; try exact Hf;
      intros Ho; destruct (Ht Ho) as (t & Et); congruence.
Qed.

Lemma stop_protocol {D} (w : World D) (x y : System D) :
  sys_steps w x y ->
  (owner x <> Outside -> stop_requested x) ->
  (owner x = StopReturned -> exists s, MonsoonReader.state (reader x) = Terminated s) ->
  (owner y <> Outside -> stop_requested y)
  /\ (owner y = StopReturned -> exists s, MonsoonReader.state (reader y) = Terminated s).
Proof.
  induction 1 as [x | x y z Hs _ IH]; intros Hf Ht.
  - split; assumption.
  - destruct (stop_protocol_step w x y Hs Hf Ht) as (Hf' & Ht').
    exact (IH Hf' Ht').
Qed.

Lemma nothing_after_stop {D} (w : World D) (x y : System D) s :
  owner x = StopReturned -> MonsoonReader.state (reader x) = Terminated s ->
  sys_steps w x y -> y = x.
Proof.
  intros Ho Et Hs. destruct Hs as [x | x y z Hs _]; [reflexivity |].
  exfalso.
  destruct Hs as [r r' Es | r | r s0 Et0 | r Et0 | r r' c Hw];
    cbn [reader owner] in *; try discriminate.
  destruct Hw; congruence.
Qed.

Lemma blocked_in_join {D} (w : World D) (x y : System D) :
  owner x = Joining ->
  MonsoonReader.state (reader x) <> Initial ->
  (forall s, MonsoonReader.state (reader x) <> Terminated s) ->
  sys_step w x y ->
  owner y = Joining /\ worker_step w (reader x) (reader y).
Proof.
  intros Ho Hi Ht Hs.
  destruct Hs as [r r' Es | r | r s0 Et0 | r Et0 | r r' c Hw];
    cbn [reader owner] in *; try discriminate.
  - elim (Ht s0 Et0).
  - elim (Hi Et0).
  - split; assumption.
Qed.

(** C7: in every execution of a reader and its owner, [stop()] first sets
    the event and then stays in [join()] while the worker runs, returning
    only when the worker has terminated; once it has returned nothing
    changes any more, so the series is frozen; and from the moment the
    event is set the series changes at most by what the iteration then in
    progress appends, after which the worker leaves the loop. *)
Theorem stop_freezes_series {D} (w : World D)
    (sample_hz sample_offset : Z) (live : bool) (x : System D) :
  sys_steps w (mkSystem (MonsoonReader.__init__ D sample_hz sample_offset live) Outside) x ->
  (owner x = Joining \/ owner x = StopReturned -> stop_requested x)
  /\ (owner x = Joining ->
      MonsoonReader.state (reader x) <> Initial ->
      (forall s, MonsoonReader.state (reader x) <> Terminated s) ->
      forall y, sys_step w x y ->
      owner y = Joining /\ worker_step w (reader x) (reader y))
  /\ (owner x = StopReturned ->
      (exists s, MonsoonReader.state (reader x) = Terminated s)
      /\ forall y, sys_steps w x y -> y = x /\ series_of y = series_of x)
  /\ (stop_requested x ->
      forall y, sys_steps w x y ->
      series_of y = series_of x
      \/ exists s fuel s',
           MonsoonReader.state (reader x) = InBody s
           /\ step_state
                (iteration w (native_rate w) (MonsoonReader.sample_hz (reader x))
                   (MonsoonReader.live (reader x)) fuel s) = Some s'
           /\ series_of y = series_in s')
  /\ (stop_requested x ->
      forall s, MonsoonReader.state (reader x) = AtCheck s ->
      worker_step w (reader x) (MonsoonReader.finish w (Cancelled (checked s)) (reader x))
      /\ forall r', worker_step w (reader x) r' ->
         r' = MonsoonReader.finish w (Cancelled (checked s)) (reader x)).
Proof.
  intros Hx.
  destruct (stop_protocol w _ x Hx) as (Hf & Ht).
  { intros H; now elim H. }
  { discriminate. }
  split.
  { intros [Ho | Ho]; apply Hf; rewrite Ho; discriminate. }
  split.
  { intros Ho Hi Hn y Hy. exact (blocked_in_join w x y Ho Hi Hn Hy). }
  split.
  { intros Ho. destruct (Ht Ho) as (s & Et). split; [exists s; exact Et |].
    intros y Hy. rewrite (nothing_after_stop w x y s Ho Et Hy).
    split; reflexivity. }
  split.
  { intros Hreq y Hy. exact (stop_requested_steps w x y Hy Hreq). }
  intros Hreq s Et. split; [exact (sees_stop w (reader x) Et Hreq) |].
  intros r' Hw. unfold stop_requested in Hreq.
  destruct Hw; try congruence.
Qed.

Lemma stop_freezes_series_witness :
  exists x,
    sys_steps (sample_world 1 steady 9)
      (mkSystem (MonsoonReader.__init__ (list Q * list Z) 500 0 false) Outside) x
    /\ owner x = StopReturned
    /\ series_of x = ([(1 + 3) / 2]%Q, [1000])
    /\ (owner x = Joining \/ owner x = StopReturned -> stop_requested x)
    /\ (owner x = StopReturned ->
        (exists s, MonsoonReader.state (reader x) = Terminated s)
        /\ forall y, sys_steps (sample_world 1 steady 9) x y ->
           y = x /\ series_of y = series_of x).
Proof.
  pose (w := sample_world 1 steady 9).
  assert (R : { x | sys_steps w
                      (mkSystem (MonsoonReader.__init__ (list Q * list Z) 500 0 false) Outside) x
                    /\ owner x = StopReturned
                    /\ series_of x = ([(1 + 3) / 2]%Q, [1000]) }).
  { eexists. split; [| split].
    - eapply steps_next; [apply calls_start; reflexivity |].
      eapply steps_next; [apply worker_runs, run_begins; reflexivity |].
      eapply steps_next; [eapply worker_runs, sees_clear; reflexivity |].
      eapply steps_next;
        [eapply worker_runs; eapply body_continues with (fuel := 2%nat);
           reflexivity |].
      eapply steps_next; [eapply worker_runs, sees_clear; reflexivity |].
      eapply steps_next;
        [eapply worker_runs; eapply body_continues with (fuel := 2%nat);
           reflexivity |].
      eapply steps_next; [apply stop_sets |].
      eapply steps_next; [eapply worker_runs, sees_stop; reflexivity |].
      eapply steps_next; [eapply join_returns; reflexivity |].
      apply steps_refl.
    - reflexivity.
    - vm_compute. reflexivity. }
  destruct R as (x & Hx & Ho & Es). exists x.
  split; [exact Hx |]. split; [exact Ho |]. split; [exact Es |].
  destruct (stop_freezes_series w 500 0 false x Hx) as (H1 & _ & H3 & _).
  split; [exact H1 | exact H3].
Defined.

(** ** The worker's loop states are the reachable ones *)

Lemma worker_step_ok {D} (w : World D) hz live (r r' : MonsoonReader.self D) :
  worker_step w r r' -> worker_ok w hz live r -> worker_ok w hz live r'.
Proof.
  unfold worker_ok. intros Hw (Eh & El & Hs).
  destruct Hw as [r Et | r s Et Eset | r s Et Eset
                 | r s fuel s' Et Ei | r s fuel s' Et Ei
                 | r s fuel e s' Et Ei];
    rewrite Et in Hs; cbn;
    (split; [exact Eh |]); (split; [exact El |]); try exact I.
  - rewrite Eh. apply top_first.
  - exists s. split; [exact Hs | reflexivity].
  - destruct Hs as (t & Ht & ->). rewrite Eh, El in Ei.
    eapply top_next; eassumption.
Qed.

Lemma worker_states_at_top {D} (w : World D) hz off live (x : System D) :
  sys_steps w (mkSystem (MonsoonReader.__init__ D hz off live) Outside) x ->
  worker_ok w hz live (reader x).
Proof.
  assert (G : forall a b : System D,
             sys_steps w a b ->
             worker_ok w hz live (reader a) -> worker_ok w hz live (reader b)).
  { induction 1 as [a | a b c Hs _ IH]; intros Ha; [exact Ha |].
    apply IH.
    destruct Hs as [r r' Es | r | r s0 Et0 | r Et0 | r r' c0 Hw];
      cbn [reader] in *; try exact Ha.
    - unfold MonsoonReader.start in Es.
      destruct Ha as (Eh & El & _).
      destruct (MonsoonReader.state r); try discriminate.
      injection Es as <-. split; [exact Eh |]. split; [exact El | exact I].
    - exact (worker_step_ok w hz live r r' Hw Ha). }
  intros Hx. apply (G _ x Hx). repeat split.
Qed.

(** * Further properties of the collection loop *)

(** ** Induction over the states at the top of an iteration *)

Lemma at_top_accumulator {D} (w : World D) N R live s :
  1 <= N -> 1 <= R -> at_top w N R live s -> accumulator_ok N R s.
Proof.
  intros HN HR H. induction H as [| s fuel s' _ IH E].
  - split; cbn; lia.
  - apply (iteration_keeps_accumulator w N R live fuel (checked s) s' HN HR);
      [| exact E].
    destruct IH as (I1 & I2). split; cbn; assumption.
Qed.

(** A property holds at the top of every iteration when it holds
    initially, when a delivered batch keeps it, and when an emission
    followed by the drop of line 110 keeps it. *)
Lemma at_top_steps {D} (w : World D) N R live (P : State -> Prop) :
  P (prelude w R) ->
  (forall s n samples,
     at_top w N R live s -> P s ->
     need N R (offset s) = Return n ->
     (len (collected s) <? n) = true ->
     CollectData w (batches s) = Return samples -> truthy samples = true ->
     P (extend (list_of samples) (collect_called (checked s)))) ->
  (forall s n k v,
     at_top w N R live s -> P s ->
     need N R (offset s) = Return n ->
     (len (collected s) <? n) = false ->
     offset s + n * R - Z.of_nat k * N < N ->
     ((0 < k)%nat ->
        average (collected s) n = Return v
        /\ 0 <= offset s + n * R - Z.of_nat k * N) ->
     P (drop_consumed w n
          (emit_times w N live v k (advance (n * R) (checked s))))) ->
  forall s, at_top w N R live s -> P s.
Proof.
  intros P0 Pc Pe s H. induction H as [| s fuel s' Hs IH E]; [exact P0 |].
  destruct (need N R (offset (checked s))) as [n | e] eqn:En.
  - destruct (len (collected (checked s)) <? n) eqn:Hl.
    + rewrite (iteration_collect w N R live fuel (checked s) n En Hl) in E.
      cbn [checked batches] in E.
      destruct (CollectData w (batches s)) as [samples | e] eqn:Ec;
        [| discriminate].
      destruct (truthy samples) eqn:Et; [| discriminate].
      injection E as <-. exact (Pc s n samples Hs IH En Hl Ec Et).
    + destruct (emission_continue w N R live fuel (checked s) s' n En Hl E)
        as (k & v & -> & Hlt & Hk).
      destruct (emit_times_fields w N live v k (advance (n * R) (checked s)))
        as (Ho & _).
      cbn [drop_consumed offset] in Hlt, Hk. rewrite Ho in Hlt, Hk.
      cbn [advance checked offset] in Hlt, Hk.
      exact (Pe s n k v Hs IH En Hl Hlt Hk).
  - unfold iteration in E. rewrite En in E. discriminate.
Qed.

(** The state left by [k] emissions of [v] and the drop of [n] samples. *)
Lemma emission_fields {D} (w : World D) N live n v k d s :
  let s' := drop_consumed w n
              (emit_times w N live v k (advance d (checked s))) in
  offset s' = offset s + d - Z.of_nat k * N
  /\ emitted s' = emitted s + Z.of_nat k
  /\ collected s' = slice_from n (collected s)
  /\ current_values s' = current_values s ++ repeat v k
  /\ timestamps s' = timestamps s ++ fresh_times w (clock_reads s) k
  /\ clock_reads s' = S (clock_reads s + k)
  /\ consumed s'
     = consumed s + (len (collected s) - len (slice_from n (collected s)))
  /\ batches s' = batches s.
Proof.
  destruct (emit_times_fields w N live v k (advance d (checked s)))
    as (Ho & He & Hc & Hv & Ht & Hk & Hg & _ & Hb & _).
  cbn [advance checked offset emitted collected current_values timestamps
       clock_reads consumed batches] in Ho, He, Hc, Hv, Ht, Hk, Hg, Hb.
  cbn zeta.
  cbn [drop_consumed offset emitted collected current_values timestamps
       clock_reads consumed batches].
  rewrite Ho, He, Hc, Hv, Ht, Hk, Hg, Hb. repeat split; reflexivity.
Qed.

(** ** The counter of emitted samples *)

(** X1: at the top of every iteration, whatever the rates, the counter
    [emitted] equals the number of values and the number of timestamps
    appended so far. *)
Theorem emitted_counts_the_series {D} (w : World D) (N R : Z) (live : bool)
    (s : State) :
  at_top w N R live s ->
  emitted s = len (current_values s) /\ emitted s = len (timestamps s).
Proof.
  apply (at_top_steps w N R live
           (fun s => emitted s = len (current_values s)
                     /\ emitted s = len (timestamps s))).
  - split; reflexivity.
  - intros t n samples _ IH _ _ _ _. exact IH.
  - intros t n k v _ (Hv & Ht) _ _ _ _.
    destruct (emission_fields w N live n v k (n * R) t)
      as (_ & He & _ & Ev & Et & _).
    rewrite He, Ev, Et. unfold len in *.
    rewrite !length_app, repeat_length. unfold fresh_times.
    rewrite length_map, length_seq. lia.
Qed.

Lemma emitted_counts_the_series_witness :
  exists s,
    at_top (sample_world 0 steady 9) 2 5 false s
    /\ emitted s = 2
    /\ emitted s = len (current_values s) /\ emitted s = len (timestamps s).
Proof.
  destruct (iterations (sample_world 0 steady 9) 2 5 false 4 2
              (prelude (sample_world 0 steady 9) 5)) as [s |] eqn:E;
    [| vm_compute in E; discriminate].
  assert (H : at_top (sample_world 0 steady 9) 2 5 false s)
    by (apply (iterations_at_top _ 2 5 false 4 2 _ s (top_first _ _ _ _) E)).
  exists s. split; [exact H |].
  split; [vm_compute in E; injection E as <-; reflexivity |].
  exact (emitted_counts_the_series (sample_world 0 steady 9) 2 5 false s H).
Defined.

(** ** No drift: the closed form of the accumulator *)

(** X2: for rates at least 1, at the top of every iteration the number of
    emitted samples is [floor(consumed * OutputRate / NativeRate)] and
    [offset] is the remainder of that division: the output count never
    drifts from the exact ratio of the rates. *)
Theorem emitted_is_exact_ratio {D} (w : World D) (N R : Z) (live : bool)
    (s : State) :
  1 <= N -> 1 <= R ->
  at_top w N R live s ->
  emitted s = (consumed s * R) / N /\ offset s = (consumed s * R) mod N.
Proof.
  intros HN HR H.
  destruct (at_top_accumulator w N R live s HN HR H) as (E & B).
  split.
  - apply Z.div_unique_pos with (r := offset s); lia.
  - apply Z.mod_unique_pos with (q := emitted s); lia.
Qed.

Lemma emitted_is_exact_ratio_witness :
  exists s,
    at_top (sample_world 0 steady 9) 3 2 false s
    /\ consumed s = 2
    /\ emitted s = (consumed s * 2) / 3 /\ offset s = (consumed s * 2) mod 3.
Proof.
  destruct (iterations (sample_world 0 steady 9) 3 2 false 4 2
              (prelude (sample_world 0 steady 9) 2)) as [s |] eqn:E;
    [| vm_compute in E; discriminate].
  assert (H : at_top (sample_world 0 steady 9) 3 2 false s)
    by (apply (iterations_at_top _ 3 2 false 4 2 _ s (top_first _ _ _ _) E)).
  exists s. split; [exact H |].
  split; [vm_compute in E; injection E as <-; reflexivity |].
  apply (emitted_is_exact_ratio (sample_world 0 steady 9) 3 2 false s);
    [lia | lia | exact H].
Defined.

(** ** The pending buffer is a window on the raw stream *)

Lemma stream_succ {D} (w : World D) (k : nat) :
  stream w (S k) = stream w k ++ batch_of w k.
Proof.
  unfold stream. rewrite seq_S, flat_map_app. cbn [flat_map Nat.add].
  now rewrite app_nil_r.
Qed.

(** X3: for rates at least 1, at the top of every iteration the pending
    buffer [collected] is exactly the raw stream delivered so far without
    its first [consumed] samples: no sample is lost, duplicated or
    reordered, whatever the sizes of the batches. *)
Theorem pending_is_stream_suffix {D} (w : World D) (N R : Z) (live : bool)
    (s : State) :
  1 <= N -> 1 <= R ->
  at_top w N R live s ->
  0 <= consumed s <= len (stream w (batches s))
  /\ collected s = skipn (Z.to_nat (consumed s)) (stream w (batches s))
  /\ consumed s + len (collected s) = len (stream w (batches s)).
Proof.
  intros HN HR H.
  assert (G : exists used,
             stream w (batches s) = used ++ collected s
             /\ len used = consumed s).
  { revert s H.
    apply (at_top_steps w N R live
             (fun s => exists used,
                  stream w (batches s) = used ++ collected s
                  /\ len used = consumed s)).
    - exists []. split; reflexivity.
    - intros t n samples _ (used & Es & El) _ _ Ec _.
      exists used. cbn [extend collect_called call checked batches collected
                        consumed].
      rewrite stream_succ, Es. unfold batch_of. rewrite Ec.
      split; [now rewrite app_assoc | exact El].
    - intros t n k v Ht (used & Es & El) En Hl _ _.
      destruct (emission_fields w N live n v k (n * R) t)
        as (_ & _ & Ec & _ & _ & _ & Eg & Eb).
      rewrite Ec, Eg, Eb.
      destruct (at_top_accumulator w N R live t HN HR Ht) as (_ & B).
      pose proof (need_at_least_one N R (offset t) n HR ltac:(lia) En) as Hn.
      apply Z.ltb_ge in Hl.
      destruct (len_slice_from (collected t) n ltac:(lia)) as (-> & ->).
      exists (used ++ firstn (Z.to_nat n) (collected t)). split.
      + rewrite <- app_assoc, firstn_skipn. exact Es.
      + unfold len in *. rewrite length_app, length_firstn. lia. }
  destruct G as (used & Es & El). unfold len in *.
  rewrite Es, length_app. split; [lia |]. split; [| lia].
  replace (Z.to_nat (consumed s)) with (length used) by lia.
  rewrite skipn_app, skipn_all, Nat.sub_diag. reflexivity.
Qed.

Lemma pending_is_stream_suffix_witness :
  exists s,
    at_top (sample_world 0 steady 9) 3 2 false s
    /\ consumed s = 2
    /\ 0 <= consumed s <= len (stream (sample_world 0 steady 9) (batches s))
    /\ collected s
       = skipn (Z.to_nat (consumed s))
           (stream (sample_world 0 steady 9) (batches s))
    /\ consumed s + len (collected s)
       = len (stream (sample_world 0 steady 9) (batches s)).
Proof.
  destruct (iterations (sample_world 0 steady 9) 3 2 false 4 2
              (prelude (sample_world 0 steady 9) 2)) as [s |] eqn:E;
    [| vm_compute in E; discriminate].
  assert (H : at_top (sample_world 0 steady 9) 3 2 false s)
    by (apply (iterations_at_top _ 3 2 false 4 2 _ s (top_first _ _ _ _) E)).
  exists s. split; [exact H |].
  split; [vm_compute in E; injection E as <-; reflexivity |].
  apply (pending_is_stream_suffix (sample_world 0 steady 9) 3 2 false s);
    [lia | lia | exact H].
Defined.

(** ** Down-sampling and up-sampling *)

(** With the quotient taken exactly: when the output rate does not
    exceed the native rate ([1 <= OutputRate <= NativeRate]) an emission branch that completes
    appends exactly one value, the mean of the first [need] pending
    samples, with one timestamp, and removes exactly those [need]
    samples. *)
Lemma downsampling_emits_one_exact {D} (w : World D) (N R : Z) (live : bool)
    (fuel : nat) (s s' : State) (n : Z) :
  1 <= R <= N -> 0 <= offset s < N ->
  need N R (offset s) = Return n ->
  (len (collected s) <? n) = false ->
  iteration w N R live fuel s = Continue s' ->
  current_values s'
  = current_values s
    ++ [(sum (firstn (Z.to_nat n) (collected s)) / inject_Z n)%Q]
  /\ timestamps s'
     = timestamps s ++ [int_of_float (time w (clock_reads s))]
  /\ emitted s' = emitted s + 1
  /\ offset s' = offset s + n * R - N
  /\ collected s' = skipn (Z.to_nat n) (collected s).
Proof.
  intros HR Hoff En Hl E.
  pose proof (need_bracket N R (offset s) n ltac:(lia) ltac:(lia) En) as B.
  pose proof (need_at_least_one N R (offset s) n ltac:(lia) ltac:(lia) En) as Hn.
  destruct (emission_continue w N R live fuel s s' n En Hl E)
    as (k & v & -> & Hlt & Hk).
  destruct (emit_times_fields w N live v k (advance (n * R) s))
    as (Ho & He & Hc & Hv & Ht & _).
  cbn [advance offset emitted collected current_values timestamps clock_reads]
    in Ho, He, Hc, Hv, Ht.
  cbn [drop_consumed offset emitted collected current_values timestamps]
    in Hlt, Hk |- *.
  rewrite Ho in Hlt, Hk.
  assert (Ek : k = 1%nat).
  { destruct k as [| [| k]]; [lia | reflexivity |].
    destruct (Hk ltac:(lia)) as (_ & Hp). nia. }
  subst k. destruct (Hk ltac:(lia)) as (Ea & _).
  rewrite average_defined in Ea by lia.
  rewrite slice_to_firstn in Ea by lia. injection Ea as <-.
  apply Z.ltb_ge in Hl.
  destruct (len_slice_from (collected s) n ltac:(lia)) as (Hs & _).
  rewrite Hv, Ht, He, Ho, Hc, Hs. unfold fresh_times. cbn [seq map repeat].
  repeat split; lia.
Qed.

(** With the quotient taken exactly: when the output rate exceeds the
    native rate ([1 <= NativeRate < OutputRate]) every output window is a single raw
    sample: the need is 1, and an emission branch that completes removes
    the first pending sample and appends
    [floor((offset + OutputRate) / NativeRate)] copies of it, at least
    one. *)
Lemma upsampling_replicates_exact {D} (w : World D) (N R : Z) (live : bool)
    (fuel : nat) (s s' : State) (x : Q) (rest : list Q) :
  1 <= N < R -> 0 <= offset s < N ->
  collected s = x :: rest ->
  iteration w N R live fuel s = Continue s' ->
  need N R (offset s) = Return 1
  /\ exists k : nat,
       Z.of_nat k = (offset s + R) / N
       /\ (1 <= k)%nat
       /\ current_values s' = current_values s ++ repeat ((0 + x) / 1)%Q k
       /\ emitted s' = emitted s + Z.of_nat k
       /\ offset s' = (offset s + R) mod N
       /\ collected s' = rest.
Proof.
  intros HR Hoff Ec E.
  assert (En : need N R (offset s) = Return 1).
  { rewrite need_floor by lia. f_equal.
    symmetry. apply Z.div_unique_pos with (r := N - offset s - 1); lia. }
  split; [exact En |].
  assert (Hl : (len (collected s) <? 1) = false).
  { apply Z.ltb_ge. rewrite Ec. unfold len. cbn [length]. lia. }
  destruct (emission_continue w N R live fuel s s' 1 En Hl E)
    as (k & v & -> & Hlt & Hk).
  destruct (emit_times_fields w N live v k (advance (1 * R) s))
    as (Ho & He & Hc & Hv & _).
  cbn [advance offset emitted collected current_values] in Ho, He, Hc, Hv.
  cbn [drop_consumed offset emitted collected current_values] in Hlt, Hk |- *.
  rewrite Ho in Hlt, Hk.
  assert (Hk1 : (1 <= k)%nat) by (destruct k; [lia | lia]).
  destruct (Hk ltac:(lia)) as (Ea & Hp).
  rewrite Ec in Ea. cbn in Ea. injection Ea as <-.
  exists k.
  split; [apply Z.div_unique_pos with (r := offset s + R - Z.of_nat k * N); lia |].
  split; [exact Hk1 |].
  rewrite Hv, He, Ho, Hc, Ec.
  split; [reflexivity |]. split; [reflexivity |].
  split; [| reflexivity].
  apply Z.mod_unique_pos with (q := Z.of_nat k); lia.
Qed.

(** ** Timestamps follow the clock *)

Lemma floor_quotients_ordered (a c u v : Z) :
  0 <= a -> 0 < u -> 0 < v -> a * v <= c * u -> a / u <= c / v.
Proof.
  intros Ha Hu Hv H.
  apply Z.div_le_lower_bound; [exact Hv |].
  pose proof (Z.mul_div_le a u Hu) as L.
  assert (0 <= a / u) by (apply Z.div_pos; lia).
  apply (Z.mul_le_mono_pos_l _ _ u Hu). nia.
Qed.

Lemma quot_negative (p u : Z) :
  p < 0 -> 0 < u -> Z.quot p u = - ((- p) / u).
Proof.
  intros Hp Hu. rewrite <- (Z.opp_involutive p) at 1.
  rewrite Z.quot_opp_l by lia. f_equal. apply Z.quot_div_nonneg; lia.
Qed.

Lemma int_of_float_monotone (a b : Q) :
  (a <= b)%Q -> int_of_float a <= int_of_float b.
Proof.
  destruct a as [p u], b as [q v]. unfold Qle, int_of_float. cbn [Qnum Qden].
  intros H.
  destruct (Z_lt_le_dec p 0) as [Hp | Hp]; destruct (Z_lt_le_dec q 0) as [Hq | Hq].
  - rewrite !quot_negative by lia.
    apply Z.opp_le_mono. rewrite !Z.opp_involutive.
    apply floor_quotients_ordered; lia.
  - rewrite quot_negative by lia. rewrite Z.quot_div_nonneg by lia.
    assert (0 <= (- p) / Z.pos u) by (apply Z.div_pos; lia).
    assert (0 <= q / Z.pos v) by (apply Z.div_pos; lia). lia.
  - nia.
  - rewrite !Z.quot_div_nonneg by lia.
    apply floor_quotients_ordered; lia.
Qed.

Lemma StronglySorted_app (l1 l2 : list Z) :
  StronglySorted Z.le l1 -> StronglySorted Z.le l2 ->
  (forall x y, In x l1 -> In y l2 -> x <= y) ->
  StronglySorted Z.le (l1 ++ l2).
Proof.
  induction l1 as [| a l1 IH]; intros H1 H2 H; [exact H2 |].
  apply StronglySorted_inv in H1. destruct H1 as (H1 & Ha).
  cbn [app]. constructor.
  - apply IH; [exact H1 | exact H2 |].
    intros x y Hx Hy. apply H; [right; exact Hx | exact Hy].
  - apply Forall_app. split; [exact Ha |].
    apply Forall_forall. intros y Hy. apply H; [left; reflexivity | exact Hy].
Qed.

Lemma fresh_times_sorted {D} (w : World D) (c k : nat) :
  clock_monotone w ->
  StronglySorted Z.le (fresh_times w c k)
  /\ Forall (fun t => int_of_float (time w c) <= t
                      /\ t <= int_of_float (time w (c + k))) (fresh_times w c k).
Proof.
  intros Hm. revert c. induction k as [| k IH]; intros c.
  - split; constructor.
  - unfold fresh_times in *. cbn [seq map].
    destruct (IH (S c)) as (Hs & Hf). split.
    + constructor; [exact Hs |].
      eapply Forall_impl; [| exact Hf]. cbn beta. intros t (Ht & _).
      pose proof (int_of_float_monotone _ _ (Hm c (S c) ltac:(lia))). lia.
    + constructor.
      * split; [lia |]. apply int_of_float_monotone, Hm. lia.
      * eapply Forall_impl; [| exact Hf]. cbn beta. intros t (Ht & Hu).
        pose proof (int_of_float_monotone _ _ (Hm c (S c) ltac:(lia))).
        replace (c + S k)%nat with (S c + k)%nat by lia. lia.
Qed.

(** X6: if the clock never goes back, then at the top of every iteration
    the timestamps of the series are in non-decreasing order (several
    outputs may share one second), and none is later than the clock. *)
Theorem timestamps_nondecreasing {D} (w : World D) (N R : Z) (live : bool)
    (s : State) :
  clock_monotone w ->
  at_top w N R live s ->
  StronglySorted Z.le (timestamps s)
  /\ Forall (fun t => t <= int_of_float (time w (clock_reads s)))
       (timestamps s).
Proof.
  intros Hm.
  apply (at_top_steps w N R live
           (fun s => StronglySorted Z.le (timestamps s)
                     /\ Forall (fun t => t <= int_of_float
                                               (time w (clock_reads s)))
                          (timestamps s))).
  - split; constructor.
  - intros t n samples _ IH _ _ _ _. exact IH.
  - intros t n k v _ (Hs & Hf) _ _ _ _.
    destruct (emission_fields w N live n v k (n * R) t)
      as (_ & _ & _ & _ & Et & Ek & _).
    rewrite Et, Ek.
    destruct (fresh_times_sorted w (clock_reads t) k Hm) as (Fs & Ff).
    rewrite Forall_forall in Hf, Ff.
    pose proof (int_of_float_monotone _ _
                  (Hm (clock_reads t) (S (clock_reads t + k)) ltac:(lia))) as M1.
    pose proof (int_of_float_monotone _ _
                  (Hm (clock_reads t + k)%nat (S (clock_reads t + k))
                      ltac:(lia))) as M2.
    split.
    + apply StronglySorted_app; [exact Hs | exact Fs |].
      intros x y Hx Hy. specialize (Hf x Hx). specialize (Ff y Hy).
      cbn beta in Ff. lia.
    + apply Forall_app. split; apply Forall_forall; intros x Hx.
      * specialize (Hf x Hx). lia.
      * specialize (Ff x Hx). cbn beta in Ff. lia.
Qed.

Lemma sample_clock_monotone rate source stop_after :
  clock_monotone (sample_world rate source stop_after).
Proof.
  intros i j Hij. unfold Qle. cbn [sample_world time Qnum Qden]. lia.
Qed.

Lemma timestamps_nondecreasing_witness :
  exists s,
    at_top (sample_world 0 steady 9) 2 5 false s
    /\ timestamps s = [1000; 1001]
    /\ StronglySorted Z.le (timestamps s)
    /\ Forall (fun t => t <= int_of_float
                              (time (sample_world 0 steady 9) (clock_reads s)))
         (timestamps s).
Proof.
  destruct (iterations (sample_world 0 steady 9) 2 5 false 4 2
              (prelude (sample_world 0 steady 9) 5)) as [s |] eqn:E;
    [| vm_compute in E; discriminate].
  assert (H : at_top (sample_world 0 steady 9) 2 5 false s)
    by (apply (iterations_at_top _ 2 5 false 4 2 _ s (top_first _ _ _ _) E)).
  exists s. split; [exact H |].
  split; [vm_compute in E; injection E as <-; reflexivity |].
  apply (timestamps_nondecreasing (sample_world 0 steady 9) 2 5 false s);
    [apply sample_clock_monotone | exact H].
Defined.

(** ** Live mode mirrors the series *)

Lemma live_lines_app (ts1 ts2 : list Z) (vs1 vs2 : list Q) :
  length ts1 = length vs1 ->
  live_lines (ts1 ++ ts2) (vs1 ++ vs2)
  = live_lines ts1 vs1 ++ live_lines ts2 vs2.
Proof.
  unfold live_lines. revert vs1.
  induction ts1 as [| t ts1 IH]; intros [| v vs1] H; try discriminate.
  - reflexivity.
  - cbn [app combine map]. f_equal. apply IH. now injection H.
Qed.

Lemma emit_times_log {D} (w : World D) N live v k : forall s,
  log (emit_times w N live v k s)
  = log s ++ (if live
              then live_lines (fresh_times w (clock_reads s) k) (repeat v k)
              else []).
Proof.
  induction k as [| k IH]; intros s; cbn [emit_times].
  - destruct live; now rewrite app_nil_r.
  - rewrite IH. cbn [emit log clock_reads]. unfold fresh_times.
    cbn [seq map repeat]. destruct live.
    + rewrite <- app_assoc. reflexivity.
    + reflexivity.
Qed.

(** X7: the log holds the "Taking samples" line followed, in live mode, by
    one line per output sample carrying its timestamp and its value, in
    the order of the series; without live mode nothing more is logged. *)
Theorem live_log_mirrors_series {D} (w : World D) (N R : Z) (live : bool)
    (s : State) :
  at_top w N R live s ->
  log s
  = TakingSamples R (GetVoltage w)
    :: (if live then live_lines (timestamps s) (current_values s) else []).
Proof.
  intros H.
  assert (G : lockstep s
              /\ log s
                 = TakingSamples R (GetVoltage w)
                   :: (if live
                       then live_lines (timestamps s) (current_values s)
                       else [])); [| exact (proj2 G)].
  revert s H.
  apply (at_top_steps w N R live
           (fun s => lockstep s
                     /\ log s
                        = TakingSamples R (GetVoltage w)
                          :: (if live
                              then live_lines (timestamps s) (current_values s)
                              else []))).
  - split; [reflexivity |]. destruct live; reflexivity.
  - intros t n samples _ IH _ _ _ _. exact IH.
  - intros t n k v _ (Hl & Hg) _ _ _ _.
    split.
    + apply (emit_times_lockstep w N live v k (advance (n * R) (checked t))).
      exact Hl.
    + destruct (emission_fields w N live n v k (n * R) t)
        as (_ & _ & _ & Ev & Et & _).
      rewrite Ev, Et. cbn [drop_consumed log].
      rewrite emit_times_log. cbn [advance checked log clock_reads].
      rewrite Hg. destruct live; [| reflexivity].
      rewrite live_lines_app by (symmetry; exact Hl). reflexivity.
Qed.

Lemma live_log_mirrors_series_witness :
  exists s,
    at_top (sample_world 0 steady 9) 2 5 true s
    /\ length (current_values s) = 2%nat
    /\ log s
       = TakingSamples 5 (GetVoltage (sample_world 0 steady 9))
         :: (if true then live_lines (timestamps s) (current_values s) else []).
Proof.
  destruct (iterations (sample_world 0 steady 9) 2 5 true 4 2
              (prelude (sample_world 0 steady 9) 5)) as [s |] eqn:E;
    [| vm_compute in E; discriminate].
  assert (H : at_top (sample_world 0 steady 9) 2 5 true s)
    by (apply (iterations_at_top _ 2 5 true 4 2 _ s (top_first _ _ _ _) E)).
  exists s. split; [exact H |].
  split; [vm_compute in E; injection E as <-; reflexivity |].
  exact (live_log_mirrors_series (sample_world 0 steady 9) 2 5 true s H).
Defined.

(** ** When [self.data] is available *)






(** ** Rates that divide exactly *)

(** With the quotient taken exactly: when the native rate is a multiple
    [m] of the output rate, the accumulator is back to 0 at the top of every iteration, every window
    needs exactly [m] raw samples, and [consumed = emitted * m]. *)
Lemma exact_division_exact {D} (w : World D) (R m : Z)
    (live : bool) (s : State) :
  1 <= R -> 1 <= m ->
  at_top w (m * R) R live s ->
  offset s = 0
  /\ need (m * R) R (offset s) = Return m
  /\ consumed s = emitted s * m.
Proof.
  intros HR Hm H.
  assert (HN : 1 <= m * R) by nia.
  assert (Hneed : need (m * R) R 0 = Return m).
  { rewrite need_floor by lia. f_equal.
    symmetry. apply Z.div_unique_pos with (r := R - 1); lia. }
  assert (Ho : offset s = 0).
  { revert s H.
    apply (at_top_steps w (m * R) R live (fun s => offset s = 0)).
    - reflexivity.
    - intros t n samples _ IH _ _ _ _. exact IH.
    - intros t n k v _ IH En _ Hlt Hk.
      destruct (emission_fields w (m * R) live n v k (n * R) t) as (E & _).
      rewrite E. rewrite IH in *.
      rewrite Hneed in En. injection En as <-.
      destruct k as [| [| k]]; [nia | lia |].
      destruct (Hk ltac:(lia)) as (_ & Hp). nia. }
  split; [exact Ho |]. rewrite Ho. split; [exact Hneed |].
  destruct (at_top_accumulator w (m * R) R live s HN HR H) as (E & _).
  rewrite Ho in E. nia.
Qed.

(** ** Progress while the monitor delivers *)

Lemma emission_completes {D} (w : World D) N R live s n :
  1 <= R -> 0 <= offset s < N ->
  need N R (offset s) = Return n ->
  (len (collected s) <? n) = false ->
  exists k : nat,
    (1 <= k)%nat
    /\ forall fuel, (k <= fuel)%nat ->
       exists s',
         iteration w N R live fuel s = Continue s'
         /\ emitted s' = emitted s + Z.of_nat k
         /\ 0 <= offset s' < N.
Proof.
  intros HR Hoff En Hl.
  pose proof (need_bracket N R (offset s) n HR ltac:(lia) En) as B.
  pose proof (need_at_least_one N R (offset s) n HR ltac:(lia) En) as Hn.
  pose proof (average_defined (collected s) n ltac:(lia)) as Ea.
  set (v := (sum (slice_to n (collected s)) / inject_Z n)%Q) in *.
  set (k := Z.to_nat ((offset s + n * R) / N)).
  assert (Hq : 1 <= (offset s + n * R) / N)
    by (apply Z.div_le_lower_bound; lia).
  exists k. split; [lia |]. intros fuel Hf.
  exists (drop_consumed w n (emit_times w N live v k (advance (n * R) s))).
  rewrite (iteration_emission w N R live fuel s n En Hl).
  rewrite (emit_loop_terminates w N live n v fuel (advance (n * R) s));
    cbn [advance offset collected]; try assumption; try lia.
  fold k. split; [reflexivity |].
  destruct (emit_times_fields w N live v k (advance (n * R) s))
    as (Ho & He & _).
  cbn [advance offset emitted] in Ho, He.
  cbn [drop_consumed offset emitted]. rewrite Ho, He.
  split; [reflexivity |].
  replace (Z.of_nat k) with ((offset s + n * R) / N) by lia.
  pose proof (Z.div_mod (offset s + n * R) N ltac:(lia)) as Dm.
  pose proof (Z.mod_pos_bound (offset s + n * R) N ltac:(lia)) as Mb.
  nia.
Qed.

(** X11: for rates at least 1, from any loop state with an offset in
    [[0, NativeRate)], if every [CollectData] call delivers at least one
    sample, the loop emits again after finitely many iterations: some
    number [k] of iterations, at most one more than the samples still
    missing for the next window, completes and increases [emitted]. *)
Theorem loop_emits_again {D} (w : World D) (N R : Z) (live : bool)
    (s : State) (n : Z) :
  1 <= R -> 0 <= offset s < N ->
  source_never_dry w ->
  need N R (offset s) = Return n ->
  exists (k fuel : nat) (s' : State),
    (k <= S (Z.to_nat (n - len (collected s))))%nat
    /\ iterations w N R live fuel k s = Some s'
    /\ emitted s < emitted s'
    /\ 0 <= offset s' < N.
Proof.
  intros HR Hoff Hsrc En.
  remember (Z.to_nat (n - len (collected s))) as d eqn:Ed.
  revert s Hoff En Ed.
  induction d as [d IH] using lt_wf_ind. intros s Hoff En Ed.
  destruct (len (collected s) <? n) eqn:Hl.
  - apply Z.ltb_lt in Hl.
    destruct (Hsrc (batches s)) as (samples & Ec & Et).
    set (s1 := extend (list_of samples) (collect_called (checked s))).
    assert (Hgrow : len (collected s) < len (collected s1)).
    { cbn [s1 extend collect_called call checked collected]. unfold len.
      rewrite length_app. destruct samples as [[| x l] |]; try discriminate.
      cbn [list_of length]. lia. }
    destruct (IH (Z.to_nat (n - len (collected s1))) ltac:(lia) s1
                Hoff En eq_refl) as (k & fuel & s' & Hk & Ei & He & Ho).
    exists (S k), fuel, s'. split; [lia |]. split; [| split; assumption].
    cbn [iterations].
    rewrite (iteration_collect w N R live fuel (checked s) n En)
      by (apply Z.ltb_lt; exact Hl).
    cbn [checked batches]. rewrite Ec, Et. exact Ei.
  - destruct (emission_completes w N R live (checked s) n HR Hoff En Hl)
      as (k & Hk & Hrun).
    destruct (Hrun k (le_n k)) as (s' & Ei & He & Ho).
    exists 1%nat, k, s'. split; [lia |]. cbn [iterations]. rewrite Ei.
    split; [reflexivity |]. split; [cbn [checked emitted] in He; lia | exact Ho].
Qed.

Lemma steady_never_dry rate stop_after :
  source_never_dry (sample_world rate steady stop_after).
Proof.
  intros i. exists (Some [1; 3; 5; 7]%Q). split; reflexivity.
Qed.

Lemma loop_emits_again_witness :
  exists (k fuel : nat) (s' : State),
    (k <= S (Z.to_nat
               (2 - len (collected (prelude (sample_world 0 steady 9) 2)))))%nat
    /\ iterations (sample_world 0 steady 9) 3 2 false fuel k
         (prelude (sample_world 0 steady 9) 2) = Some s'
    /\ emitted (prelude (sample_world 0 steady 9) 2) < emitted s'
    /\ 0 <= offset s' < 3.
Proof.
  apply (loop_emits_again (sample_world 0 steady 9) 3 2 false
           (prelude (sample_world 0 steady 9) 2) 2).
  - lia.
  - cbn. lia.
  - apply steady_never_dry.
  - reflexivity.
Defined.

(** ** Sequential runs are executions of the thread *)

Lemma sys_steps_trans {D} (w : World D) (x y z : System D) :
  sys_steps w x y -> sys_steps w y z -> sys_steps w x z.
Proof.
  induction 1 as [x | x y' y Hs _ IH]; intros Hz; [exact Hz |].
  eapply steps_next; [exact Hs | exact (IH Hz)].
Qed.

Lemma worker_steps_once {D} (w : World D) (r r' : MonsoonReader.self D) c :
  worker_step w r r' -> sys_steps w (mkSystem r c) (mkSystem r' c).
Proof.
  intros H. eapply steps_next; [apply worker_runs; exact H | apply steps_refl].
Qed.

(** The worker follows the sequential loop; its owner calls [stop()] at
    the check where the schedule of the loop has the event set. *)
Lemma loop_is_executed {D} (w : World D) hz live fuel : forall s e rd,
  loop w (native_rate w) hz live fuel s = Some e ->
  MonsoonReader.state rd = AtCheck s ->
  MonsoonReader._please_stop rd = false ->
  MonsoonReader.sample_hz rd = hz ->
  MonsoonReader.live rd = live ->
  match e with
  | Cancelled _ =>
      sys_steps w (mkSystem rd Outside)
        (mkSystem (MonsoonReader.finish w e (MonsoonReader.set_please_stop rd))
           StopReturned)
  | _ =>
      sys_steps w (mkSystem rd Outside)
        (mkSystem (MonsoonReader.finish w e rd) Outside)
  end.
Proof.
  induction fuel as [| fuel IH]; intros s e rd E Es Ef Eh El; [discriminate |].
  cbn [loop] in E.
  destruct (is_set w (checks s)).
  - injection E as <-.
    eapply steps_next; [apply stop_sets |].
    eapply steps_next;
      [apply worker_runs;
       apply (sees_stop w (MonsoonReader.set_please_stop rd) Es eq_refl) |].
    eapply steps_next; [eapply join_returns; reflexivity | apply steps_refl].
  - pose (rd1 := MonsoonReader.with_state (InBody (checked s)) rd).
    assert (S1 : sys_steps w (mkSystem rd Outside) (mkSystem rd1 Outside))
      by (apply worker_steps_once; exact (sees_clear w rd Es Ef)).
    destruct (iteration w (native_rate w) hz live (S fuel) (checked s))
      as [s' | s' | x s' |] eqn:Ei; try discriminate.
    + pose (rd2 := MonsoonReader.with_state (AtCheck s') rd1).
      assert (S2 : sys_steps w (mkSystem rd1 Outside) (mkSystem rd2 Outside)).
      { apply worker_steps_once.
        apply (body_continues w rd1 (S fuel) (s := checked s));
          [reflexivity |].
        cbn [rd1 MonsoonReader.with_state MonsoonReader.sample_hz
             MonsoonReader.live]. rewrite Eh, El. exact Ei. }
      pose proof (IH s' e rd2 E eq_refl Ef Eh El) as S3.
      destruct e; exact (sys_steps_trans w _ _ _ S1
                           (sys_steps_trans w _ _ _ S2 S3)).
    + injection E as <-.
      apply (sys_steps_trans w _ _ _ S1). apply worker_steps_once.
      apply (body_breaks w rd1 (S fuel) (s := checked s));
        [reflexivity |].
      cbn [rd1 MonsoonReader.with_state MonsoonReader.sample_hz
           MonsoonReader.live]. rewrite Eh, El. exact Ei.
    + injection E as <-.
      apply (sys_steps_trans w _ _ _ S1). apply worker_steps_once.
      apply (body_raises w rd1 (S fuel) (s := checked s));
        [reflexivity |].
      cbn [rd1 MonsoonReader.with_state MonsoonReader.sample_hz
           MonsoonReader.live]. rewrite Eh, El. exact Ei.
Qed.

(** X12: whatever [_take_samples] computes when run on its own under a
    stop schedule is reached by the thread: after [start()], with
    [stop()] called at the check where the schedule has the event set (or
    never, if the loop ends by itself), the worker terminates in the same
    final state and [self.data] holds the same result; [stop()] has
    returned exactly when the loop was cancelled. *)
Theorem sequential_run_is_an_execution {D} (w : World D)
    (sample_hz sample_offset : Z) (live : bool) (fuel : nat) (res : Result D) :
  _take_samples w sample_hz sample_offset live fuel = Some res ->
  exists x,
    sys_steps w
      (mkSystem (MonsoonReader.__init__ D sample_hz sample_offset live) Outside)
      x
    /\ MonsoonReader.state (reader x) = Terminated (final res)
    /\ MonsoonReader.data (reader x) = result_data res
    /\ (owner x = StopReturned <-> exists s, ended res = Cancelled s).
Proof.
  unfold _take_samples. intros E.
  destruct (loop w (native_rate w) sample_hz live fuel (prelude w sample_hz))
    as [e |] eqn:El; [| discriminate].
  injection E as <-.
  pose (r0 := MonsoonReader.__init__ D sample_hz sample_offset live).
  pose (r1 := MonsoonReader.with_state Started r0).
  pose (r2 := MonsoonReader.with_state (AtCheck (prelude w sample_hz)) r1).
  assert (S0 : sys_steps w (mkSystem r0 Outside) (mkSystem r2 Outside)).
  { eapply steps_next; [apply (calls_start w r0 (r' := r1)); reflexivity |].
    apply worker_steps_once. exact (run_begins w r1 eq_refl). }
  pose proof (loop_is_executed w sample_hz live fuel (prelude w sample_hz) e r2
                El eq_refl eq_refl eq_refl eq_refl) as S1.
  destruct e as [s | s | x s].
  - eexists. split; [exact (sys_steps_trans w _ _ _ S0 S1) |].
    split; [reflexivity |]. split; [reflexivity |].
    split; [intros _; exists s; reflexivity | reflexivity].
  - eexists. split; [exact (sys_steps_trans w _ _ _ S0 S1) |].
    split; [reflexivity |]. split; [reflexivity |].
    split; [discriminate | intros (t & Et); discriminate].
  - eexists. split; [exact (sys_steps_trans w _ _ _ S0 S1) |].
    split; [reflexivity |]. split; [reflexivity |].
    split; [discriminate | intros (t & Et); discriminate].
Qed.

Lemma sequential_run_is_an_execution_witness :
  exists res x,
    _take_samples (sample_world 1 steady 3) 500 0 false 9 = Some res
    /\ result_data res = Some ([(1 + 3) / 2; (5 + 7) / 2]%Q, [1000; 1001])
    /\ sys_steps (sample_world 1 steady 3)
         (mkSystem (MonsoonReader.__init__ (list Q * list Z) 500 0 false)
            Outside) x
    /\ MonsoonReader.state (reader x) = Terminated (final res)
    /\ MonsoonReader.data (reader x) = result_data res
    /\ (owner x = StopReturned <-> exists s, ended res = Cancelled s).
Proof.
  destruct (_take_samples (sample_world 1 steady 3) 500 0 false 9)
    as [res |] eqn:E; [| vm_compute in E; discriminate].
  destruct (sequential_run_is_an_execution (sample_world 1 steady 3) 500 0
              false 9 res E) as (x & H).
  exists res, x. split; [reflexivity |].
  split; [vm_compute in E; injection E as <-; reflexivity | exact H].
Defined.

(** ** The series does not depend on the batches *)

Lemma windows_snoc (N R : Z) off P off' out :
  windows N R off P off' out ->
  forall n W v,
    need N R off' = Return n -> len W = n -> average W n = Return v ->
    windows N R off (P ++ W) ((off' + n * R) mod N)
      (out ++ repeat v (Z.to_nat ((off' + n * R) / N))).
Proof.
  induction 1 as [off | off n0 W0 v0 rest off' out En0 El0 Ea0 _ IH];
    intros n W v En El Ea.
  - cbn [app].
    rewrite <- (app_nil_r W) at 1.
    rewrite <- (app_nil_r (repeat v _)).
    eapply windows_cons; [exact En | exact El | exact Ea | apply windows_nil].
  - rewrite <- !app_assoc.
    eapply windows_cons; [exact En0 | exact El0 | exact Ea0 |].
    exact (IH n W v En El Ea).
Qed.

Lemma average_of_window (W rest : list Q) (n : Z) :
  len W = n -> average (W ++ rest) n = average W n.
Proof.
  intros El. unfold average, slice_to, len in *.
  destruct (Z.ltb_spec n 0); [lia |].
  replace (Z.to_nat n) with (length W) by lia.
  rewrite firstn_app, Nat.sub_diag, firstn_all. cbn [firstn].
  now rewrite app_nil_r.
Qed.

Lemma windows_resample (N R : Z) off P off' out :
  windows N R off P off' out ->
  1 <= N -> 1 <= R -> 0 <= off < N ->
  forall fuel, (length P < fuel)%nat -> resample fuel N R off P = out.
Proof.
  induction 1 as [off | off n W v rest off' out En El Ea _ IH];
    intros HN HR Hoff fuel Hf; (destruct fuel as [| fuel]; [lia |]);
    cbn [resample].
  - rewrite need_floor by lia.
    assert (En : need N R off = Return ((N - off + R - 1) / R))
      by (apply need_floor; lia).
    pose proof (need_at_least_one N R off _ HR ltac:(lia) En) as Hn.
    destruct (Z.ltb_spec (len (@nil Q)) ((N - off + R - 1) / R)) as [_ | Hc];
      [reflexivity |].
    unfold len in Hc. cbn [length] in Hc. lia.
  - rewrite En.
    pose proof (need_at_least_one N R off n HR ltac:(lia) En) as Hn.
    assert (Hlen : len (W ++ rest) = n + len rest)
      by (unfold len in *; rewrite length_app; lia).
    destruct (Z.ltb_spec (len (W ++ rest)) n) as [Hc | _];
      [unfold len in *; lia |].
    rewrite (average_of_window W rest n El), Ea.
    f_equal.
    assert (Es : slice_from n (W ++ rest) = rest).
    { unfold slice_from, len in *. destruct (Z.ltb_spec n 0); [lia |].
      replace (Z.to_nat n) with (length W) by lia.
      rewrite skipn_app, skipn_all, Nat.sub_diag. reflexivity. }
    rewrite Es. apply IH; try assumption.
    + apply Z.mod_pos_bound. lia.
    + rewrite length_app in Hf. unfold len in El. lia.
Qed.

(** The consumed prefix of the stream splits into the windows whose
    averages make the series. *)
Lemma at_top_windows {D} (w : World D) N R live s :
  1 <= N -> 1 <= R ->
  at_top w N R live s ->
  exists used,
    stream w (batches s) = used ++ collected s
    /\ len used = consumed s
    /\ windows N R 0 used (offset s) (current_values s).
Proof.
  intros HN HR. revert s.
  apply (at_top_steps w N R live
           (fun s => exists used,
                stream w (batches s) = used ++ collected s
                /\ len used = consumed s
                /\ windows N R 0 used (offset s) (current_values s))).
  - exists []. repeat split. apply windows_nil.
  - intros t n samples _ (used & Es & El & Hw) _ _ Ec _.
    exists used. cbn [extend collect_called call checked batches collected
                      consumed offset current_values].
    rewrite stream_succ, Es. unfold batch_of. rewrite Ec.
    split; [now rewrite app_assoc |]. split; [exact El | exact Hw].
  - intros t n k v Ht (used & Es & El & Hw) En Hl Hlt Hk.
    destruct (emission_fields w N live n v k (n * R) t)
      as (Eo & _ & Ec & Ev & _ & _ & Eg & Eb).
    rewrite Eo, Ec, Ev, Eg, Eb.
    destruct (at_top_accumulator w N R live t HN HR Ht) as (_ & B).
    pose proof (need_bracket N R (offset t) n HR ltac:(lia) En) as Br.
    pose proof (need_at_least_one N R (offset t) n HR ltac:(lia) En) as Hn.
    apply Z.ltb_ge in Hl.
    destruct (len_slice_from (collected t) n ltac:(lia)) as (-> & ->).
    assert (Hk1 : (1 <= k)%nat) by (destruct k; [nia | lia]).
    destruct (Hk ltac:(lia)) as (Ea & Hp).
    assert (Eq : Z.of_nat k = (offset t + n * R) / N)
      by (apply Z.div_unique_pos
            with (r := offset t + n * R - Z.of_nat k * N); lia).
    assert (Em : offset t + n * R - Z.of_nat k * N = (offset t + n * R) mod N)
      by (apply Z.mod_unique_pos with (q := Z.of_nat k); lia).
    set (W := firstn (Z.to_nat n) (collected t)).
    assert (ElW : len W = n)
      by (unfold W, len in *; rewrite length_firstn; lia).
    assert (EaW : average W n = Return v).
    { rewrite <- (average_of_window W (skipn (Z.to_nat n) (collected t)) n ElW).
      unfold W. rewrite firstn_skipn. exact Ea. }
    exists (used ++ W). split; [| split].
    + rewrite <- app_assoc. unfold W. rewrite firstn_skipn. exact Es.
    + unfold len in *. rewrite length_app. lia.
    + rewrite Em. replace k with (Z.to_nat ((offset t + n * R) / N)) by lia.
      exact (windows_snoc N R 0 used (offset t) (current_values t) Hw
               n W v En ElW EaW).
Qed.

Lemma firstn_exact (used rest : list Q) (c : Z) :
  len used = c -> firstn (Z.to_nat c) (used ++ rest) = used.
Proof.
  intros El. unfold len in El.
  replace (Z.to_nat c) with (length used) by lia.
  rewrite firstn_app, Nat.sub_diag, firstn_all. cbn [firstn].
  apply app_nil_r.
Qed.

(** X13: for rates at least 1, at the top of every iteration the values
    of the series are the resampling, window by window, of the first
    [consumed] samples of the raw stream: they are a function of the
    stream alone, not of the way [CollectData] cut it into batches, nor
    of the clock. *)
Theorem series_is_resampled_stream {D} (w : World D) (N R : Z) (live : bool)
    (s : State) :
  1 <= N -> 1 <= R ->
  at_top w N R live s ->
  current_values s
  = resample (S (Z.to_nat (consumed s))) N R 0
      (firstn (Z.to_nat (consumed s)) (stream w (batches s))).
Proof.
  intros HN HR H.
  destruct (at_top_windows w N R live s HN HR H) as (used & Es & El & Hw).
  rewrite Es, (firstn_exact used (collected s) (consumed s) El).
  symmetry. apply (windows_resample N R 0 used (offset s) _ Hw HN HR);
    [lia | unfold len in El; lia].
Qed.

Lemma series_is_resampled_stream_witness :
  exists s,
    at_top (sample_world 0 steady 9) 3 2 false s
    /\ consumed s = 3
    /\ current_values s
       = resample (S (Z.to_nat (consumed s))) 3 2 0
           (firstn (Z.to_nat (consumed s))
              (stream (sample_world 0 steady 9) (batches s))).
Proof.
  destruct (iterations (sample_world 0 steady 9) 3 2 false 4 3
              (prelude (sample_world 0 steady 9) 2)) as [s |] eqn:E;
    [| vm_compute in E; discriminate].
  assert (H : at_top (sample_world 0 steady 9) 3 2 false s)
    by (apply (iterations_at_top _ 3 2 false 4 3 _ s (top_first _ _ _ _) E)).
  exists s. split; [exact H |].
  split; [vm_compute in E; injection E as <-; reflexivity |].
  apply (series_is_resampled_stream (sample_world 0 steady 9) 3 2 false s);
    [lia | lia | exact H].
Defined.

(** X14: two runs at the same rates (at least 1) that have consumed the
    same number of samples of streams that agree on those samples hold the
    same values, the same count of emitted samples and the same offset,
    however differently the two monitors cut the stream into batches and
    whatever the two clocks and live settings. *)
Theorem series_independent_of_batches {D1 D2} (w1 : World D1) (w2 : World D2)
    (N R : Z) (live1 live2 : bool) (s1 s2 : State) :
  1 <= N -> 1 <= R ->
  at_top w1 N R live1 s1 ->
  at_top w2 N R live2 s2 ->
  consumed s1 = consumed s2 ->
  firstn (Z.to_nat (consumed s1)) (stream w1 (batches s1))
  = firstn (Z.to_nat (consumed s2)) (stream w2 (batches s2)) ->
  current_values s1 = current_values s2
  /\ emitted s1 = emitted s2
  /\ offset s1 = offset s2.
Proof.
  intros HN HR H1 H2 Ec Ep.
  destruct (at_top_windows w1 N R live1 s1 HN HR H1) as (u1 & Es1 & El1 & Hw1).
  destruct (at_top_windows w2 N R live2 s2 HN HR H2) as (u2 & Es2 & El2 & Hw2).
  rewrite Es1, (firstn_exact u1 _ _ El1) in Ep.
  rewrite Es2, (firstn_exact u2 _ _ El2) in Ep. subst u2.
  destruct (at_top_accumulator w1 N R live1 s1 HN HR H1) as (A1 & B1).
  destruct (at_top_accumulator w2 N R live2 s2 HN HR H2) as (A2 & B2).
  assert (Ee : emitted s1 = emitted s2).
  { rewrite Ec in A1.
    assert (emitted s1 = (consumed s2 * R) / N)
      by (apply Z.div_unique_pos with (r := offset s1); lia).
    assert (emitted s2 = (consumed s2 * R) / N)
      by (apply Z.div_unique_pos with (r := offset s2); lia).
    congruence. }
  split; [| split; [exact Ee | rewrite A1, A2, Ec, Ee; reflexivity]].
  rewrite <- (windows_resample N R 0 u1 (offset s1) _ Hw1 HN HR
                ltac:(lia) (S (length u1)) ltac:(lia)).
  rewrite <- (windows_resample N R 0 u1 (offset s2) _ Hw2 HN HR
                ltac:(lia) (S (length u1)) ltac:(lia)).
  reflexivity.
Qed.

Lemma series_independent_of_batches_witness :
  exists s1 s2,
    at_top (sample_world 0 steady 9) 3 2 false s1
    /\ at_top (sample_world 0 paired 9) 3 2 true s2
    /\ batches s1 = 1%nat /\ batches s2 = 2%nat
    /\ consumed s1 = 3
    /\ current_values s1 = current_values s2
    /\ emitted s1 = emitted s2
    /\ offset s1 = offset s2.
Proof.
  destruct (iterations (sample_world 0 steady 9) 3 2 false 4 3
              (prelude (sample_world 0 steady 9) 2)) as [s1 |] eqn:E1;
    [| vm_compute in E1; discriminate].
  destruct (iterations (sample_world 0 paired 9) 3 2 true 4 4
              (prelude (sample_world 0 paired 9) 2)) as [s2 |] eqn:E2;
    [| vm_compute in E2; discriminate].
  assert (H1 : at_top (sample_world 0 steady 9) 3 2 false s1)
    by (apply (iterations_at_top _ 3 2 false 4 3 _ s1 (top_first _ _ _ _) E1)).
  assert (H2 : at_top (sample_world 0 paired 9) 3 2 true s2)
    by (apply (iterations_at_top _ 3 2 true 4 4 _ s2 (top_first _ _ _ _) E2)).
  exists s1, s2. split; [exact H1 |]. split; [exact H2 |].
  split; [vm_compute in E1; injection E1 as <-; reflexivity |].
  split; [vm_compute in E2; injection E2 as <-; reflexivity |].
  split; [vm_compute in E1; injection E1 as <-; reflexivity |].
  apply (series_independent_of_batches (sample_world 0 steady 9)
           (sample_world 0 paired 9) 3 2 false true s1 s2);
    [lia | lia | exact H1 | exact H2 | |];
    vm_compute in E1, E2; injection E1 as <-; injection E2 as <-; reflexivity.
Defined.

(** ** What the end of the stream leaves behind *)

Lemma at_top_emitted_len {D} (w : World D) N R live s :
  at_top w N R live s -> emitted s = len (current_values s).
Proof.
  apply (at_top_steps w N R live (fun s => emitted s = len (current_values s))).
  - reflexivity.
  - intros t n samples _ IH _ _ _ _. exact IH.
  - intros t n k v _ IH _ _ _ _.
    destruct (emission_fields w N live n v k (n * R) t) as (_ & He & _ & Ev & _).
    rewrite He, Ev. unfold len in *. rewrite length_app, repeat_length. lia.
Qed.

(** X15: for rates at least 1, when the run ends because the monitor
    delivered nothing, the samples still pending are fewer than the next
    window needs and are left out: the values handed to [MonsoonData] are
    the resampling of the consumed samples only, and their number is
    [floor(consumed * OutputRate / NativeRate)]. *)
Theorem end_of_stream_drops_partial_window {D} (w : World D)
    (sample_hz sample_offset : Z) (live : bool) (fuel : nat)
    (res : Result D) (s : State) :
  1 <= native_rate w -> 1 <= sample_hz ->
  _take_samples w sample_hz sample_offset live fuel = Some res ->
  ended res = EndOfStream s ->
  (exists n,
     need (native_rate w) sample_hz (offset (final res)) = Return n
     /\ len (collected (final res)) < n)
  /\ len (current_values (final res))
     = (consumed (final res) * sample_hz) / native_rate w
  /\ current_values (final res)
     = resample (S (Z.to_nat (consumed (final res)))) (native_rate w)
         sample_hz 0
         (firstn (Z.to_nat (consumed (final res)))
            (stream w (batches (final res) - 1))).
Proof.
  intros HN HR E Ee. unfold _take_samples in E.
  destruct (loop w (native_rate w) sample_hz live fuel (prelude w sample_hz))
    as [e |] eqn:El; [| discriminate].
  injection E as <-. cbn [epilogue ended] in Ee. subst e.
  destruct (loop_passes_at_top w (native_rate w) sample_hz live fuel
              (prelude w sample_hz) (EndOfStream s)
              (top_first _ _ _ _) El) as (t & fuel' & Ht & Ei).
  destruct (at_top_accumulator w _ _ live t HN HR Ht) as (A & B).
  assert (En : need (native_rate w) sample_hz (offset (checked t))
               = Return ((native_rate w - offset t + sample_hz - 1) / sample_hz))
    by (apply need_floor; cbn [checked offset]; lia).
  set (n := (native_rate w - offset t + sample_hz - 1) / sample_hz) in *.
  destruct (len (collected (checked t)) <? n) eqn:Hl.
  - rewrite (iteration_collect w _ _ live fuel' (checked t) n En Hl) in Ei.
    destruct (CollectData w (batches (checked t))) as [samples | x];
      [| discriminate].
    destruct (truthy samples); [discriminate |].
    injection Ei as <-.
    cbn [epilogue final call end_state collect_called checked offset collected
         current_values consumed batches].
    split; [| split].
    + exists n. split; [exact En |]. apply Z.ltb_lt. exact Hl.
    + rewrite <- (at_top_emitted_len w _ _ live t Ht).
      apply Z.div_unique_pos with (r := offset t); lia.
    + replace (S (batches t) - 1)%nat with (batches t) by lia.
      destruct (at_top_windows w _ _ live t HN HR Ht) as (used & Es & Elu & Hw).
      rewrite Es, (firstn_exact used (collected t) (consumed t) Elu).
      symmetry.
      apply (windows_resample _ _ 0 used (offset t) _ Hw HN HR);
        [lia | unfold len in Elu; lia].
  - exfalso.
    rewrite (iteration_emission w _ _ live fuel' (checked t) n En Hl) in Ei.
    destruct (emit_loop w (native_rate w) live n fuel'
                (advance (n * sample_hz) (checked t)))
      as [u | u | x u |] eqn:Eu; try discriminate.
    exact (emit_loop_never_breaks w _ live n fuel' _ _ Eu).
Qed.

Lemma end_of_stream_drops_partial_window_witness :
  exists res s,
    _take_samples (sample_world 1 one_batch 9) 400 0 false 9 = Some res
    /\ ended res = EndOfStream s
    /\ collected (final res) = [7%Q]
    /\ (exists n,
          need (native_rate (sample_world 1 one_batch 9)) 400
            (offset (final res)) = Return n
          /\ len (collected (final res)) < n)
    /\ len (current_values (final res))
       = (consumed (final res) * 400) / native_rate (sample_world 1 one_batch 9)
    /\ current_values (final res)
       = resample (S (Z.to_nat (consumed (final res))))
           (native_rate (sample_world 1 one_batch 9)) 400 0
           (firstn (Z.to_nat (consumed (final res)))
              (stream (sample_world 1 one_batch 9) (batches (final res) - 1))).
Proof.
  destruct (_take_samples (sample_world 1 one_batch 9) 400 0 false 9)
    as [res |] eqn:E; [| vm_compute in E; discriminate].
  destruct (ended res) as [s | s | e s] eqn:Ee;
    try (vm_compute in E; injection E as <-; discriminate).
  exists res, s. split; [reflexivity |]. split; [exact Ee |].
  split; [vm_compute in E; injection E as <-; reflexivity |].
  apply (end_of_stream_drops_partial_window (sample_world 1 one_batch 9)
           400 0 false 9 res s);
    [vm_compute; discriminate | lia | exact E | exact Ee].
Defined.

(** ** Bounds on the need *)

(** With the quotient taken exactly: for an output rate at least 1 and
    an offset in [[0, NativeRate)], a window never needs more raw samples than
    [NativeRate - offset], hence never more than one second of input, and
    a larger offset never needs more samples than a smaller one. *)
Lemma need_exact_within_one_second (N R off1 off2 n1 n2 : Z) :
  1 <= R -> 0 <= off1 <= off2 -> off2 < N ->
  need N R off1 = Return n1 ->
  need N R off2 = Return n2 ->
  1 <= n2 /\ n2 <= n1 /\ n1 <= N - off1 /\ n1 <= N.
Proof.
  intros HR Ho1 Ho2 E1 E2.
  pose proof (need_bracket N R off1 n1 HR ltac:(lia) E1) as B1.
  pose proof (need_bracket N R off2 n2 HR ltac:(lia) E2) as B2.
  assert (H2 : 1 <= n2) by nia.
  assert (H21 : n2 <= n1) by nia.
  assert (H1 : n1 <= N - off1) by nia.
  lia.
Qed.

(** * Line 88 under Python 3 *)

(** ** The rounded quotient is exact below [2^53] *)

Lemma scale_up (x e : Z) : 0 <= e -> scale x e = x * 2 ^ e.
Proof. intros H. unfold scale. now rewrite Z.max_r by lia. Qed.

Lemma scale_down (x e : Z) : e <= 0 -> scale x e = x.
Proof.
  intros H. unfold scale. rewrite Z.max_l by lia. cbn. lia.
Qed.

Lemma round_half_even_cases (num den : Z) :
  round_half_even num den = num / den
  \/ (round_half_even num den = num / den + 1 /\ den <= 2 * (num mod den)).
Proof.
  unfold round_half_even.
  destruct (Z.ltb_spec (2 * (num mod den)) den) as [H1 | H1]; [left; reflexivity |].
  destruct (Z.ltb_spec den (2 * (num mod den))) as [H2 | H2];
    [right; split; [reflexivity | lia] |].
  destruct (Z.even (num / den)); [left; reflexivity |].
  right. split; [reflexivity | lia].
Qed.

Lemma quotient_exponent_lower (a b : Z) :
  0 < a -> 0 < b ->
  scale b (quotient_exponent a b) <= scale a (- quotient_exponent a b).
Proof.
  intros Ha Hb. unfold quotient_exponent.
  set (la := Z.log2 a). set (lb := Z.log2 b).
  destruct (Z.leb_spec (scale b (la - lb)) (scale a (- (la - lb))))
    as [H | _]; [exact H |].
  pose proof (Z.log2_spec a Ha) as (La & _). fold la in La.
  pose proof (Z.log2_spec b Hb) as (_ & Ub). fold lb in Ub.
  pose proof (Z.log2_nonneg a) as Na. fold la in Na.
  pose proof (Z.log2_nonneg b) as Nb. fold lb in Nb.
  destruct (Z_lt_le_dec (la - lb - 1) 0) as [Hneg | Hpos].
  - rewrite scale_down by lia. rewrite scale_up by lia.
    replace (- (la - lb - 1)) with (Z.succ lb - la) by lia.
    assert (E : 2 ^ la * 2 ^ (Z.succ lb - la) = 2 ^ Z.succ lb)
      by (rewrite <- Z.pow_add_r by lia; f_equal; lia).
    assert (0 < 2 ^ (Z.succ lb - la)) by (apply Z.pow_pos_nonneg; lia).
    nia.
  - rewrite scale_up by lia. rewrite scale_down by lia.
    assert (E : 2 ^ Z.succ lb * 2 ^ (la - lb - 1) = 2 ^ la)
      by (rewrite <- Z.pow_add_r by lia; f_equal; lia).
    assert (0 < 2 ^ (la - lb - 1)) by (apply Z.pow_pos_nonneg; lia).
    nia.
Qed.

(** Rounding up cannot reach the next multiple of [P] unless the
    denominator is at least [2 * P]. *)
Lemma round_up_stays_below (a b P : Z) :
  0 < a -> 0 < b -> 0 < P ->
  b <= 2 * ((a * P) mod b) ->
  b < 2 * P ->
  ((a * P) / b + 1) / P = a / b.
Proof.
  intros Ha Hb HP Hr Hsmall.
  pose proof (Z.div_mod (a * P) b ltac:(lia)) as D1.
  pose proof (Z.mod_pos_bound (a * P) b Hb) as B1.
  pose proof (Z.div_mod a b ltac:(lia)) as D2.
  pose proof (Z.mod_pos_bound a b Hb) as B2.
  set (f := (a * P) / b) in *. set (rem := (a * P) mod b) in *.
  set (Q := a / b) in *. set (ra := a mod b) in *.
  (* f lies between Q * P and Q * P + P - 1 *)
  assert (Hf1 : Q * P <= f) by nia.
  assert (Hf2 : f < (Q + 1) * P) by nia.
  symmetry. apply Z.div_unique_pos with (r := f + 1 - Q * P); [| lia].
  split; [lia |].
  destruct (Z_lt_le_dec (f + 1 - Q * P) P) as [Hok | Hbad]; [exact Hok |].
  exfalso.
  assert (Ef : f = Q * P + P - 1) by lia.
  assert (Er : rem = b - (b - ra) * P) by nia.
  nia.
Qed.

Lemma int_truediv_pos_exact (a b : Z) :
  0 < a < 2 ^ 53 -> 0 < b -> int_truediv_pos a b = Return (a / b).
Proof.
  intros Ha Hb. unfold int_truediv_pos.
  pose proof (quotient_exponent_lower a b ltac:(lia) Hb) as Hlow.
  set (E := quotient_exponent a b) in *.
  set (e := Z.max (E - 52) (-1074)).
  destruct (Z.leb_spec 0 e) as [He | He].
  - (* a quotient of 2^52 or more: the divisor is 1 *)
    assert (EE : e = E - 52) by lia.
    rewrite scale_up in Hlow by lia. rewrite scale_down in Hlow by lia.
    assert (H52 : 2 ^ 52 <= 2 ^ E) by (apply Z.pow_le_mono_r; lia).
    assert (Hb1 : b = 1) by nia.
    assert (HE : E = 52).
    { destruct (Z_le_gt_dec 53 E) as [H53 | H53]; [| lia].
      pose proof (Z.pow_le_mono_r 2 53 E ltac:(lia) H53). nia. }
    subst b. replace e with 0 by lia.
    rewrite !scale_up by lia. rewrite Z.pow_0_r, !Z.mul_1_r.
    unfold round_half_even. rewrite Z.div_1_r, Z.mod_1_r.
    change (2 * 0 <? 1) with true. cbv iota.
    destruct (Z.leb_spec (2 ^ 1024) a) as [Hov | _].
    + exfalso. assert (2 ^ 53 < 2 ^ 1024) by (apply Z.pow_lt_mono_r; lia). lia.
    + reflexivity.
  - cbn [andb].
    rewrite scale_up by lia. rewrite scale_down by lia.
    set (P := 2 ^ (- e)).
    assert (HP : 0 < P) by (apply Z.pow_pos_nonneg; lia).
    assert (Hfloor : (a * P) / b / P = a / b).
    { rewrite Z.div_div by lia. apply Z.div_mul_cancel_r; lia. }
    destruct (round_half_even_cases (a * P) b) as [-> | (-> & Hr)];
      [f_equal; exact Hfloor |].
    f_equal.
    destruct (Z_lt_le_dec b (2 * P)) as [Hlt | Hge];
      [apply (round_up_stays_below a b P); lia |].
    (* a larger divisor: impossible for a normal float, and a quotient
       below one half for a subnormal one *)
    destruct (Z_le_gt_dec (-1074) (E - 52)) as [Hn | Hs]; [exfalso |].
    + assert (EE : - e = 52 - E) by lia.
      destruct (Z_le_gt_dec 0 E) as [HE | HE].
      * rewrite scale_up in Hlow by lia. rewrite scale_down in Hlow by lia.
        assert (X : 2 * P * 2 ^ E = 2 ^ 53).
        { unfold P. rewrite EE.
          replace 2 with (2 ^ 1) at 1 by reflexivity.
          rewrite <- !Z.pow_add_r by lia. f_equal. lia. }
        assert (0 < 2 ^ E) by (apply Z.pow_pos_nonneg; lia). nia.
      * rewrite scale_down in Hlow by lia. rewrite scale_up in Hlow by lia.
        assert (X : 2 * P = 2 ^ 53 * 2 ^ (- E)).
        { unfold P. rewrite EE.
          replace 2 with (2 ^ 1) at 1 by reflexivity.
          rewrite <- !Z.pow_add_r by lia. f_equal. lia. }
        assert (0 < 2 ^ (- E)) by (apply Z.pow_pos_nonneg; lia). nia.
    + assert (EE : - e = 1074) by lia.
      assert (2 ^ 54 <= P).
      { unfold P. rewrite EE. apply Z.pow_le_mono_r; lia. }
      assert (X : 2 ^ 53 * 2 = 2 ^ 54) by reflexivity.
      rewrite (Z.div_small a b) by lia.
      assert (Hf : (a * P) / b <= a).
      { apply Z.div_le_upper_bound; [lia |]. nia. }
      assert (0 <= (a * P) / b) by (apply Z.div_pos; nia).
      apply Z.div_small. lia.
Qed.

Lemma int_truediv_binary64_exact (a b : Z) :
  0 <= a < 2 ^ 53 -> 0 < b ->
  int_truediv_binary64 a b = Return (a / b)
  /\ int_truediv_binary64 a b = int_truediv a b.
Proof.
  intros Ha Hb.
  assert (E : int_truediv_binary64 a b = Return (a / b)).
  { unfold int_truediv_binary64.
    destruct (Z.eqb_spec b 0) as [-> | _]; [lia |].
    destruct (Z.eqb_spec a 0) as [-> | Hn]; [now rewrite Z.div_0_l by lia |].
    rewrite !Z.abs_eq by lia.
    rewrite int_truediv_pos_exact by lia.
    rewrite !Z.sgn_pos by lia. f_equal. lia. }
  split; [exact E |]. rewrite E. symmetry. apply int_truediv_floor; lia.
Qed.

Lemma need_py3_exact (N R off : Z) :
  1 <= R -> off < N -> N - off + R - 1 < 2 ^ 53 ->
  need_py3 N R off = need N R off.
Proof.
  intros HR Hoff Hb. unfold need_py3, need.
  apply int_truediv_binary64_exact; lia.
Qed.

(** ** The two loops agree for rates below [2^53] *)

Lemma iteration_py3_exact {D} (w : World D) N R live fuel s :
  1 <= R -> N + R <= 2 ^ 53 -> 0 <= offset s < N ->
  iteration_py3 w N R live fuel s = iteration w N R live fuel s.
Proof.
  intros HR Hb Ho. unfold iteration_py3, iteration.
  now rewrite need_py3_exact by lia.
Qed.

Lemma at_top_py3_exact {D} (w : World D) N R live s :
  1 <= N -> 1 <= R -> N + R <= 2 ^ 53 ->
  at_top_py3 w N R live s <-> at_top w N R live s.
Proof.
  intros HN HR Hb. split.
  - induction 1 as [| s fuel s' _ IH E]; [apply top_first |].
    destruct (at_top_accumulator w N R live s HN HR IH) as (_ & B).
    rewrite iteration_py3_exact in E by (cbn [checked offset]; lia).
    eapply top_next; eassumption.
  - induction 1 as [| s fuel s' Hs IH E]; [apply top_first_py3 |].
    destruct (at_top_accumulator w N R live s HN HR Hs) as (_ & B).
    rewrite <- iteration_py3_exact in E by (cbn [checked offset]; lia).
    eapply top_next_py3; eassumption.
Qed.

Lemma loop_py3_exact {D} (w : World D) N R live fuel : forall s,
  1 <= N -> 1 <= R -> N + R <= 2 ^ 53 ->
  accumulator_ok N R s ->
  loop_py3 w N R live fuel s = loop w N R live fuel s.
Proof.
  induction fuel as [| fuel IH]; intros s HN HR Hb Hs; [reflexivity |].
  cbn [loop_py3 loop].
  destruct (is_set w (checks s)); [reflexivity |].
  assert (Hc : accumulator_ok N R (checked s))
    by (destruct Hs; split; assumption).
  pose proof (proj2 Hs) as B.
  rewrite iteration_py3_exact by (cbn [checked offset]; lia).
  destruct (iteration w N R live (S fuel) (checked s)) as [s' | | |] eqn:Ei;
    try reflexivity.
  apply IH; try assumption.
  exact (iteration_keeps_accumulator w N R live (S fuel) (checked s) s'
           HN HR Hc Ei).
Qed.

(** ** Line 88 and the ceiling *)

(** The rounded quotient is not always the ceiling: with both rates at
    [10^16] it is 2 where the ceiling is 1, and with a native rate of
    9007199254741014000 and an output rate of 1 it falls 496 short. *)
Lemma need_py3_misses_the_ceiling :
  (1 <= 10000000000000000 /\ 0 <= 0 < 10000000000000000)
  /\ need_py3 10000000000000000 10000000000000000 0 = Return 2
  /\ need_spec 10000000000000000 10000000000000000 0 = 1
  /\ need_py3 10000000000000000 10000000000000000 0
     <> Return (need_spec 10000000000000000 10000000000000000 0)
  /\ need_py3 9007199254741014000 1 0 = Return 9007199254741013504
  /\ need_spec 9007199254741014000 1 0 = 9007199254741014000
  /\ 9007199254741013504 * 1 < 9007199254741014000 - 0.
Proof.
  split; [lia |].
  split; [vm_compute; reflexivity |].
  split; [vm_compute; reflexivity |].
  split; [vm_compute; discriminate |].
  split; [vm_compute; reflexivity |].
  split; [vm_compute; reflexivity | lia].
Qed.

(** C2 (amended): for rates at least 1 and an offset in
    [[0, NativeRate)] with [NativeRate - offset + OutputRate - 1 < 2^53],
    the need computation of line 88, with its quotient rounded as Python 3
    rounds it, returns [ceil((NativeRate - offset) / OutputRate)]: the
    least count whose multiple of the output rate reaches
    [NativeRate - offset], never the under-counting floor. *)
Theorem need_py3_is_ceiling (N R off : Z) :
  1 <= N -> 1 <= R -> 0 <= off < N ->
  N - off + R - 1 < 2 ^ 53 ->
  need_py3 N R off = Return (need_spec N R off)
  /\ (need_spec N R off - 1) * R < N - off <= need_spec N R off * R
  /\ (N - off) / R <= need_spec N R off.
Proof.
  intros HN HR Hoff Hb.
  rewrite need_py3_exact by lia.
  exact (need_exact_is_ceiling N R off HN HR Hoff).
Qed.

Lemma need_py3_is_ceiling_witness :
  need_py3 5000 3 1 = Return (need_spec 5000 3 1)
  /\ (need_spec 5000 3 1 - 1) * 3 < 5000 - 1 <= need_spec 5000 3 1 * 3
  /\ (5000 - 1) / 3 <= need_spec 5000 3 1.
Proof.
  apply (need_py3_is_ceiling 5000 3 1); lia.
Defined.

(** ** Properties that depend on the value of the need *)

(** X16: for an output rate at least 1, offsets
    [0 <= off1 <= off2 < NativeRate] and
    [NativeRate - off1 + OutputRate - 1 < 2^53], the need computed by
    Python 3 is at least 1, never exceeds [NativeRate - offset] (so never
    more than one second of input), and a larger offset never needs more
    samples than a smaller one. *)
Theorem need_within_one_second (N R off1 off2 n1 n2 : Z) :
  1 <= R -> 0 <= off1 <= off2 -> off2 < N ->
  N - off1 + R - 1 < 2 ^ 53 ->
  need_py3 N R off1 = Return n1 ->
  need_py3 N R off2 = Return n2 ->
  1 <= n2 /\ n2 <= n1 /\ n1 <= N - off1 /\ n1 <= N.
Proof.
  intros HR Ho1 Ho2 Hb E1 E2.
  rewrite need_py3_exact in E1 by lia.
  rewrite need_py3_exact in E2 by lia.
  exact (need_exact_within_one_second N R off1 off2 n1 n2 HR Ho1 Ho2 E1 E2).
Qed.

Lemma need_within_one_second_witness :
  1 <= 1 /\ 1 <= 1667 /\ 1667 <= 5000 - 0 /\ 1667 <= 5000.
Proof.
  apply (need_within_one_second 5000 3 0 4999 1667 1);
    try lia; vm_compute; reflexivity.
Defined.

(** X4: when [1 <= OutputRate <= NativeRate] and
    [NativeRate + OutputRate <= 2^53], an emission branch of the loop run
    by Python 3 that completes appends exactly one value, the mean of the
    first [need] pending samples, with one timestamp, and removes exactly
    those [need] samples. *)
Theorem downsampling_emits_one {D} (w : World D) (N R : Z) (live : bool)
    (fuel : nat) (s s' : State) (n : Z) :
  1 <= R <= N -> N + R <= 2 ^ 53 -> 0 <= offset s < N ->
  need_py3 N R (offset s) = Return n ->
  (len (collected s) <? n) = false ->
  iteration_py3 w N R live fuel s = Continue s' ->
  current_values s'
  = current_values s
    ++ [(sum (firstn (Z.to_nat n) (collected s)) / inject_Z n)%Q]
  /\ timestamps s'
     = timestamps s ++ [int_of_float (time w (clock_reads s))]
  /\ emitted s' = emitted s + 1
  /\ offset s' = offset s + n * R - N
  /\ collected s' = skipn (Z.to_nat n) (collected s).
Proof.
  intros HR Hb Hoff En Hl E.
  rewrite need_py3_exact in En by lia.
  rewrite iteration_py3_exact in E by lia.
  exact (downsampling_emits_one_exact w N R live fuel s s' n HR Hoff En Hl E).
Qed.

Lemma downsampling_emits_one_witness :
  exists s',
    iteration_py3 (sample_world 0 steady 9) 3 2 false 3 (sample_pending 2)
      = Continue s'
    /\ current_values s'
       = current_values (sample_pending 2)
         ++ [(sum (firstn (Z.to_nat 2) (collected (sample_pending 2)))
              / inject_Z 2)%Q]
    /\ timestamps s'
       = timestamps (sample_pending 2)
         ++ [int_of_float (time (sample_world 0 steady 9)
                             (clock_reads (sample_pending 2)))]
    /\ emitted s' = emitted (sample_pending 2) + 1
    /\ offset s' = offset (sample_pending 2) + 2 * 2 - 3
    /\ collected s' = skipn (Z.to_nat 2) (collected (sample_pending 2)).
Proof.
  destruct (iteration_py3 (sample_world 0 steady 9) 3 2 false 3
              (sample_pending 2))
    as [s' | | |] eqn:E; try (vm_compute in E; discriminate).
  exists s'. split; [reflexivity |].
  apply (downsampling_emits_one (sample_world 0 steady 9) 3 2 false 3
           (sample_pending 2) s' 2);
    [lia | vm_compute; discriminate | cbn; lia | vm_compute; reflexivity
    | reflexivity | exact E].
Defined.

(** X5: when [1 <= NativeRate < OutputRate] and
    [NativeRate + OutputRate <= 2^53], every output window of the loop run
    by Python 3 is a single raw sample: the need is 1, and an emission
    branch that completes removes the first pending sample and appends
    [floor((offset + OutputRate) / NativeRate)] copies of it, at least
    one. *)
Theorem upsampling_replicates {D} (w : World D) (N R : Z) (live : bool)
    (fuel : nat) (s s' : State) (x : Q) (rest : list Q) :
  1 <= N < R -> N + R <= 2 ^ 53 -> 0 <= offset s < N ->
  collected s = x :: rest ->
  iteration_py3 w N R live fuel s = Continue s' ->
  need_py3 N R (offset s) = Return 1
  /\ exists k : nat,
       Z.of_nat k = (offset s + R) / N
       /\ (1 <= k)%nat
       /\ current_values s' = current_values s ++ repeat ((0 + x) / 1)%Q k
       /\ emitted s' = emitted s + Z.of_nat k
       /\ offset s' = (offset s + R) mod N
       /\ collected s' = rest.
Proof.
  intros HR Hb Hoff Ec E.
  rewrite need_py3_exact by lia.
  rewrite iteration_py3_exact in E by lia.
  exact (upsampling_replicates_exact w N R live fuel s s' x rest HR Hoff Ec E).
Qed.

Lemma upsampling_replicates_witness :
  exists s',
    iteration_py3 (sample_world 0 steady 9) 2 5 false 3 (sample_pending 5)
      = Continue s'
    /\ need_py3 2 5 (offset (sample_pending 5)) = Return 1
    /\ exists k : nat,
         Z.of_nat k = (offset (sample_pending 5) + 5) / 2
         /\ (1 <= k)%nat
         /\ current_values s'
            = current_values (sample_pending 5) ++ repeat ((0 + 1) / 1)%Q k
         /\ emitted s' = emitted (sample_pending 5) + Z.of_nat k
         /\ offset s' = (offset (sample_pending 5) + 5) mod 2
         /\ collected s' = [3; 5; 7]%Q.
Proof.
  destruct (iteration_py3 (sample_world 0 steady 9) 2 5 false 3
              (sample_pending 5))
    as [s' | | |] eqn:E; try (vm_compute in E; discriminate).
  exists s'. split; [reflexivity |].
  apply (upsampling_replicates (sample_world 0 steady 9) 2 5 false 3
           (sample_pending 5) s' 1%Q [3; 5; 7]%Q);
    [lia | vm_compute; discriminate | cbn; lia | reflexivity | exact E].
Defined.

(** X9: when the native rate is a multiple [m] of the output rate and
    [(m + 1) * OutputRate <= 2^53], the accumulator of the loop run by
    Python 3 is back to 0 at the top of every iteration, every window
    needs exactly [m] raw samples, and [consumed = emitted * m]. *)
Theorem exact_division_keeps_offset_zero {D} (w : World D) (R m : Z)
    (live : bool) (s : State) :
  1 <= R -> 1 <= m -> m * R + R <= 2 ^ 53 ->
  at_top_py3 w (m * R) R live s ->
  offset s = 0
  /\ need_py3 (m * R) R (offset s) = Return m
  /\ consumed s = emitted s * m.
Proof.
  intros HR Hm Hb H.
  assert (HN : 1 <= m * R) by nia.
  apply (at_top_py3_exact w (m * R) R live s HN HR Hb) in H.
  destruct (exact_division_exact w R m live s HR Hm H) as (Ho & En & Ec).
  split; [exact Ho |]. split; [| exact Ec].
  rewrite need_py3_exact by lia. exact En.
Qed.

Lemma exact_division_keeps_offset_zero_witness :
  exists s,
    at_top_py3 (sample_world 0 steady 9) (2 * 3) 3 false s
    /\ emitted s = 2
    /\ offset s = 0
    /\ need_py3 (2 * 3) 3 (offset s) = Return 2
    /\ consumed s = emitted s * 2.
Proof.
  destruct (iterations (sample_world 0 steady 9) (2 * 3) 3 false 4 3
              (prelude (sample_world 0 steady 9) 3)) as [s |] eqn:E;
    [| vm_compute in E; discriminate].
  assert (H : at_top_py3 (sample_world 0 steady 9) (2 * 3) 3 false s).
  { apply (at_top_py3_exact (sample_world 0 steady 9) (2 * 3) 3 false s);
      [lia | lia | lia |].
    apply (iterations_at_top _ (2 * 3) 3 false 4 3 _ s (top_first _ _ _ _) E). }
  exists s. split; [exact H |].
  split; [vm_compute in E; injection E as <-; reflexivity |].
  apply (exact_division_keeps_offset_zero (sample_world 0 steady 9) 3 2 false s);
    [lia | lia | lia | exact H].
Defined.

(** ** The run under Python 3 is the run with the exact quotient *)

(** X17: when the native rate and the output rate are at least 1 and
    their sum is at most [2^53], rounding the quotient of line 88 to a
    float changes nothing: the run with Python 3's division returns what
    the run with the exact quotient returns, for every world and every
    amount of fuel, and the two loops pass through the same states. *)
Theorem python3_run_is_exact_run {D} (w : World D)
    (sample_hz sample_offset : Z) (live : bool) :
  1 <= native_rate w -> 1 <= sample_hz ->
  native_rate w + sample_hz <= 2 ^ 53 ->
  (forall fuel,
     _take_samples_py3 w sample_hz sample_offset live fuel
     = _take_samples w sample_hz sample_offset live fuel)
  /\ (forall s,
        at_top_py3 w (native_rate w) sample_hz live s
        <-> at_top w (native_rate w) sample_hz live s).
Proof.
  intros HN HR Hb. split.
  - intros fuel. unfold _take_samples_py3, _take_samples.
    rewrite (loop_py3_exact w (native_rate w) sample_hz live fuel
               (prelude w sample_hz) HN HR Hb); [reflexivity |].
    split; cbn; lia.
  - intros s. exact (at_top_py3_exact w _ _ live s HN HR Hb).
Qed.

Lemma python3_run_is_exact_run_witness :
  (forall fuel,
     _take_samples_py3 (sample_world 5 steady 3) 7 0 false fuel
     = _take_samples (sample_world 5 steady 3) 7 0 false fuel)
  /\ (forall s,
        at_top_py3 (sample_world 5 steady 3)
          (native_rate (sample_world 5 steady 3)) 7 false s
        <-> at_top (sample_world 5 steady 3)
              (native_rate (sample_world 5 steady 3)) 7 false s).
Proof.
  apply (python3_run_is_exact_run (sample_world 5 steady 3) 7 0 false).
  - vm_compute. discriminate.
  - lia.
  - vm_compute. discriminate.
Defined.
